(** * Policy Navigator front end: response normalisation, document ids and
      the upload / ask workflows

    Shallow embedding of
      - [frontend/src/PolicyNavigatorApp.jsx] ([toDocId], [getBestText],
        [classNames], [handleDrop], [handleUpload], [handleAsk] and the
        expressions the page shows),
      - [frontend/src/api.js] ([uploadFile], [indexItems], [ask]), and
      - the standalone components [UploadPanel.jsx], [AskForm] and
        [AnswerCard.jsx].

    JavaScript strings are sequences of UTF-16 code units, JSON responses are
    trees of JavaScript values, exceptions are an explicit error result, and
    the React state together with the list of issued network requests is
    threaded through the handlers.  Conversions to a string and the binary
    [+] throw where JavaScript throws; numbers are the integer-valued Numbers
    with their rounding and their printed form.  A state updater given to a
    setter runs when React renders, after the handler and outside its [try]:
    what it throws is kept as the render error of the component.  The texts
    of the errors the engine itself throws are those of V8. *)

From Stdlib Require Import List ZArith NArith String Ascii Bool Lia DecimalString.
Import ListNotations.

Set Implicit Arguments.
Set Warnings "-register-all".

(* ===================================================================== *)
(** ** JavaScript strings *)
(* ===================================================================== *)

(** A JavaScript string: its UTF-16 code units. *)
Definition jsstring := list N.

(** An ASCII literal of the source text, as code units. *)
Definition js (s : string) : jsstring := map N_of_ascii (list_ascii_of_string s).

Fixpoint str_eqb (a b : jsstring) : bool :=
  match a, b with
  | [], [] => true
  | x :: a', y :: b' => N.eqb x y && str_eqb a' b'
  | _, _ => false
  end.

Definition in_range (lo hi c : N) : bool := N.leb lo c && N.leb c hi.

(** [Array.prototype.join] on strings. *)
Fixpoint join (sep : jsstring) (parts : list jsstring) : jsstring :=
  match parts with
  | [] => []
  | [p] => p
  | p :: rest => p ++ sep ++ join sep rest
  end.

(** ECMAScript WhiteSpace and LineTerminator code units, the ones
    [String.prototype.trim] removes. *)
Definition is_white_space (c : N) : bool :=
  in_range 9 13 c            (* TAB, LF, VT, FF, CR *)
  || N.eqb c 32              (* SPACE *)
  || N.eqb c 160             (* NBSP *)
  || N.eqb c 5760            (* U+1680 *)
  || in_range 8192 8202 c    (* U+2000 .. U+200A *)
  || in_range 8232 8233 c    (* U+2028, U+2029 *)
  || N.eqb c 8239            (* U+202F *)
  || N.eqb c 8287            (* U+205F *)
  || N.eqb c 12288           (* U+3000 *)
  || N.eqb c 65279.          (* U+FEFF *)

Fixpoint trimStart (s : jsstring) : jsstring :=
  match s with
  | c :: r => if is_white_space c then trimStart r else s
  | [] => []
  end.

Definition trimEnd (s : jsstring) : jsstring := rev (trimStart (rev s)).

(** [String.prototype.trim]. *)
Definition trim (s : jsstring) : jsstring := trimEnd (trimStart s).

(** "Empty or whitespace-only". *)
Definition whitespace_only (s : jsstring) : bool := forallb is_white_space s.

Definition is_upper (c : N) : bool := in_range 65 90 c.
Definition is_lower (c : N) : bool := in_range 97 122 c.
Definition is_digit (c : N) : bool := in_range 48 57 c.
Definition hyphen : N := 45.

(** [String.prototype.toLowerCase] on the Basic Latin block: [A-Z] go to
    [a-z].  Code units outside ASCII are left alone here; [toDocId] only
    lowercases a string of ASCII letters, digits and hyphens (lemma
    [slug_chars] below), where this is exactly what JavaScript does. *)
Definition lower_unit (c : N) : N := if is_upper c then (c + 32)%N else c.
Definition toLowerCase (s : jsstring) : jsstring := map lower_unit s.

(* ===================================================================== *)
(** ** Numbers *)
(* ===================================================================== *)

(** The decimal digits of an integer, with its sign. *)
Definition decimal (n : Z) : jsstring := js (NilZero.string_of_int (Z.to_int n)).

(** The Number nearest to an integer: 53 significant bits, ties to even.
    An integer [n] stands for the Number [round_double n] throughout. *)
Definition round_double (z : Z) : Z :=
  (let a := Z.abs z in
   let sh := Z.log2 a - 52 in
   if sh <=? 0 then z
   else
     let q := a / 2 ^ sh in
     let r := a mod 2 ^ sh in
     let half := 2 ^ (sh - 1) in
     let q' := if (half <? r) || ((r =? half) && Z.odd q) then q + 1 else q in
     Z.sgn z * (q' * 2 ^ sh))%Z.

(** Beyond the largest finite Number the nearest Number is an infinity. *)
Definition is_infinite (z : Z) : bool :=
  (2 ^ 1024 <=? Z.abs (round_double z))%Z.

(** The integers of magnitude at most 2^53: each of them is a Number, and a
    sum of two of them that stays in that range is computed exactly. *)
Definition safe_integer (z : Z) : bool := (Z.abs z <=? 2 ^ 53)%Z.

(** Does the integer [y] round to the Number [a], for [a] at least 2^53?
    The bounds are the midpoints to the neighbouring Numbers, and belong to
    [a] when its significand is even. *)
Definition rounds_to (a y : Z) : bool :=
  (let sh := Z.log2 a - 52 in
   let m := a / 2 ^ sh in
   let below := if m =? 2 ^ 52 then 2 ^ (sh - 1) else 2 ^ sh in
   let lo := 2 * a - below in
   let hi := 2 * a + 2 ^ sh in
   if Z.even m then (lo <=? 2 * y) && (2 * y <=? hi)
   else (lo <? 2 * y) && (2 * y <? hi))%Z.

(** The decimals [s * 10^j] with [k] digits in [s] that round to [a]. *)
Definition candidates (a k : Z) : list (Z * Z) :=
  (let d := Z.of_nat (List.length (decimal a)) in
   flat_map (fun j =>
               if j <? 0 then []
               else
                 let s0 := a / 10 ^ j in
                 filter (fun sj => let s := fst sj in
                                   (10 ^ (k - 1) <=? s) && (s <? 10 ^ k)
                                   && rounds_to a (s * 10 ^ j))
                        [(s0, j); (s0 + 1, j)])
            [d - k; d - k + 1])%Z.

Definition distance (a : Z) (sj : Z * Z) : Z :=
  (Z.abs (fst sj * 10 ^ snd sj - a))%Z.

(** The candidate closest to [a], an even [s] winning a tie. *)
Fixpoint closest (a : Z) (best : Z * Z) (l : list (Z * Z)) : Z * Z :=
  match l with
  | [] => best
  | c :: r =>
      let better := (Z.ltb (distance a c) (distance a best))
                    || (Z.eqb (distance a c) (distance a best) && Z.even (fst c)) in
      closest a (if better then c else best) r
  end.

(** The shortest digits that still denote [a]: fewest digits first. *)
Fixpoint shortest (a : Z) (k : Z) (fuel : nat) : Z * Z :=
  match fuel with
  | O => (a, 0%Z)
  | S fuel' =>
      match candidates a k with
      | c :: r => closest a c r
      | [] => shortest a (k + 1)%Z fuel'
      end
  end.

(** [Number::toString] of a finite Number of at least 2^53: the shortest
    digits followed by zeros up to 21 digits, exponent notation beyond. *)
Definition big_to_string (a : Z) : jsstring :=
  let sj := shortest a 1 17 in
  let ds := decimal (fst sj) in
  let k := Z.of_nat (List.length ds) in
  let n := (k + snd sj)%Z in
  if (n <=? 21)%Z then ds ++ repeat 48%N (Z.to_nat (n - k))
  else match ds with
       | [] => []
       | d :: rest =>
           (d :: match rest with [] => [] | _ => 46%N :: rest end)
             ++ js "e+" ++ decimal (n - 1)
       end.

(** [Number::toString] of the Number an integer stands for. *)
Definition num_to_string (n : Z) : jsstring :=
  let d := round_double n in
  if is_infinite n then (if (d <? 0)%Z then js "-Infinity" else js "Infinity")
  else if (Z.abs d <? 2 ^ 53)%Z then decimal d
  else (if (d <? 0)%Z then js "-" else []) ++ big_to_string (Z.abs d).

(* ===================================================================== *)
(** ** Exceptions *)
(* ===================================================================== *)

(** A thrown error object: its class name and its [message]. *)
Record exn : Type := Exn { exn_name : jsstring; exn_message : jsstring }.

Definition Error (msg : jsstring) : exn := Exn (js "Error") msg.
Definition TypeError (msg : jsstring) : exn := Exn (js "TypeError") msg.

(** The outcome of evaluating an expression: a value or a thrown error. *)
Inductive result (A : Type) : Type :=
| Ok (a : A)
| Throw (e : exn).
Arguments Ok {A} a.
Arguments Throw {A} e.

Definition rbind {A B} (c : result A) (k : A -> result B) : result B :=
  match c with
  | Ok a => k a
  | Throw e => Throw e
  end.

(** [try { c } catch (e) { h e }] on pure code. *)
Definition rcatch {A} (c : result A) (h : exn -> result A) : result A :=
  match c with
  | Ok a => Ok a
  | Throw e => h e
  end.

Declare Scope js_scope.
Delimit Scope js_scope with js.
Notation "'let?' x ':=' c 'in' k" := (rbind c (fun x => k))
  (at level 10, x name, c at level 100, k at level 200) : js_scope.
Local Open Scope js_scope.

(* ===================================================================== *)
(** ** JavaScript values *)
(* ===================================================================== *)

(** Plain data as [JSON.parse] builds it, plus [undefined] (what a missing
    property reads as) and [NaN].  Numbers are the integer-valued ones and
    the infinities ([VNum n] is the Number nearest to [n]); a number with a
    fraction is outside this model.  An object is its own properties in
    enumeration order. *)
Inductive value : Type :=
| VUndefined
| VNull
| VBool (b : bool)
| VNum (n : Z)
| VNaN
| VStr (s : jsstring)
| VArr (xs : list value)
| VObj (props : list (jsstring * value)).

(** What [JSON.parse] can return: no [undefined], no [NaN]. *)
Fixpoint json_safe (v : value) : bool :=
  match v with
  | VUndefined | VNaN => false
  | VNull | VBool _ | VNum _ | VStr _ => true
  | VArr xs => forallb json_safe xs
  | VObj props => forallb (fun kv => json_safe (snd kv)) props
  end.

(** ToBoolean: what [!x], [x || y], [x && y] and [filter(Boolean)] test. *)
Definition truthy (v : value) : bool :=
  match v with
  | VUndefined | VNull | VNaN => false
  | VBool b => b
  | VNum n => negb (Z.eqb n 0)
  | VStr s => match s with [] => false | _ => true end
  | VArr _ | VObj _ => true
  end.

(** [a || b]. *)
Definition js_or (a b : value) : value := if truthy a then a else b.

Definition is_string (v : value) : bool :=
  match v with VStr _ => true | _ => false end.

Fixpoint lookup (k : jsstring) (props : list (jsstring * value)) : option value :=
  match props with
  | [] => None
  | (k', v) :: rest => if str_eqb k k' then Some v else lookup k rest
  end.

(** ToString, i.e. [String(v)] and template-literal interpolation.  An array
    joins its elements with commas ([null] and [undefined] as empty).  A plain
    object is ["[object Object]"] through the inherited method, unless it has
    a property of its own called [toString]: data is never callable and the
    inherited [valueOf] returns the object, so the conversion throws. *)
Fixpoint ToString (v : value) : result jsstring :=
  match v with
  | VUndefined => Ok (js "undefined")
  | VNull => Ok (js "null")
  | VBool true => Ok (js "true")
  | VBool false => Ok (js "false")
  | VNum n => Ok (num_to_string n)
  | VNaN => Ok (js "NaN")
  | VStr s => Ok s
  | VArr xs =>
      let? parts :=
        (fix each (l : list value) : result (list jsstring) :=
           match l with
           | [] => Ok []
           | x :: r =>
               let? s := match x with
                         | VUndefined | VNull => Ok []
                         | _ => ToString x
                         end in
               let? rest := each r in
               Ok (s :: rest)
           end) xs in
      Ok (join (js ",") parts)
  | VObj props =>
      match lookup (js "toString") props with
      | Some _ => Throw (TypeError (js "Cannot convert object to primitive value"))
      | None => Ok (js "[object Object]")
      end
  end.

(** ToNumber on the non-string primitives; [None] is NaN. *)
Definition ToNumber (v : value) : option Z :=
  match v with
  | VNull => Some 0%Z
  | VBool b => Some (if b then 1 else 0)%Z
  | VNum n => Some n
  | _ => None
  end.

(** ToPrimitive: arrays and objects become their string, or throw as
    [ToString] does. *)
Definition ToPrimitive (v : value) : result value :=
  match v with
  | VArr _ | VObj _ => let? s := ToString v in Ok (VStr s)
  | _ => Ok v
  end.

(** The sum of two Numbers: the Number nearest to the exact sum; an
    infinity absorbs a finite Number, and two opposite infinities give NaN. *)
Definition num_add (x y : Z) : value :=
  let dx := round_double x in
  let dy := round_double y in
  if is_infinite x then
    (if is_infinite y && negb (Z.eqb (Z.sgn dx) (Z.sgn dy)) then VNaN else VNum dx)
  else if is_infinite y then VNum dy
  else VNum (round_double (dx + dy)).

(** The binary [+]: both operands to primitives, left first; concatenation
    as soon as one is a string, the sum of Numbers otherwise. *)
Definition js_add (a b : value) : result value :=
  let? pa := ToPrimitive a in
  let? pb := ToPrimitive b in
  if is_string pa || is_string pb
  then let? sa := ToString pa in
       let? sb := ToString pb in
       Ok (VStr (sa ++ sb))
  else match ToNumber pa, ToNumber pb with
       | Some x, Some y => Ok (num_add x y)
       | _, _ => Ok VNaN
       end.

(* ===================================================================== *)
(** ** JSON.stringify *)
(* ===================================================================== *)

Definition hex_digit (d : N) : N :=
  if N.ltb d 10 then (48 + d)%N else (87 + d)%N.

(** UnicodeEscape: backslash, [u] and four lower-case hex digits. *)
Definition unicode_escape (c : N) : jsstring :=
  [92; 117; hex_digit (N.modulo (N.div c 4096) 16); hex_digit (N.modulo (N.div c 256) 16);
   hex_digit (N.modulo (N.div c 16) 16); hex_digit (N.modulo c 16)]%N.

Definition is_lead_surrogate (c : N) : bool := in_range 55296 56319 c.
Definition is_trail_surrogate (c : N) : bool := in_range 56320 57343 c.

(** Escape of one code unit that is not part of a surrogate pair. *)
Definition quote_unit (c : N) : jsstring :=
  if N.eqb c 8 then js "\b"
  else if N.eqb c 9 then js "\t"
  else if N.eqb c 10 then js "\n"
  else if N.eqb c 12 then js "\f"
  else if N.eqb c 13 then js "\r"
  else if N.eqb c 34 then [92; 34]%N
  else if N.eqb c 92 then [92; 92]%N
  else if N.ltb c 32 || is_lead_surrogate c || is_trail_surrogate c then unicode_escape c
  else [c].

Fixpoint quote_body (s : jsstring) : jsstring :=
  match s with
  | [] => []
  | c :: r =>
      if is_lead_surrogate c then
        match r with
        | d :: r' => if is_trail_surrogate d then c :: d :: quote_body r'
                     else unicode_escape c ++ quote_body r
        | [] => unicode_escape c
        end
      else quote_unit c ++ quote_body r
  end.

(** QuoteJSONString. *)
Definition QuoteJSONString (s : jsstring) : jsstring := [34%N] ++ quote_body s ++ [34%N].

Definition newline : jsstring := [10%N].

(** SerializeJSONProperty with its SerializeJSONObject and SerializeJSONArray:
    [None] is the [undefined] result, which drops a property and prints as
    [null] inside an array. *)
Fixpoint serialize (gap indent : jsstring) (v : value) {struct v} : option jsstring :=
  match v with
  | VUndefined => None
  | VNull => Some (js "null")
  | VBool true => Some (js "true")
  | VBool false => Some (js "false")
  | VNum n => Some (if is_infinite n then js "null" else num_to_string n)
  | VNaN => Some (js "null")
  | VStr s => Some (QuoteJSONString s)
  | VArr xs =>
      let stepback := indent in
      let indent := indent ++ gap in
      let partial :=
        map (fun x => match serialize gap indent x with
                      | Some t => t
                      | None => js "null"
                      end) xs in
      Some (match partial with
            | [] => js "[]"
            | _ =>
                match gap with
                | [] => js "[" ++ join (js ",") partial ++ js "]"
                | _ => js "[" ++ newline ++ indent
                         ++ join (js "," ++ newline ++ indent) partial
                         ++ newline ++ stepback ++ js "]"
                end
            end)
  | VObj props =>
      let stepback := indent in
      let indent := indent ++ gap in
      let partial :=
        flat_map (fun kv => match serialize gap indent (snd kv) with
                            | Some t =>
                                [QuoteJSONString (fst kv) ++ js ":"
                                   ++ match gap with [] => [] | _ => js " " end ++ t]
                            | None => []
                            end) props in
      Some (match partial with
            | [] => js "{}"
            | _ =>
                match gap with
                | [] => js "{" ++ join (js ",") partial ++ js "}"
                | _ => js "{" ++ newline ++ indent
                         ++ join (js "," ++ newline ++ indent) partial
                         ++ newline ++ stepback ++ js "}"
                end
            end)
  end.

(** The gap of a numeric [space] argument: that many spaces, at most ten. *)
Definition gap_of (space : nat) : jsstring := repeat 32%N (Nat.min 10 space).

(* ===================================================================== *)
(** ** Property access *)
(* ===================================================================== *)

(** The property names the program reads off a response.  None of them is
    defined on a built-in prototype, so reading one off a string, a number, a
    boolean or an array gives [undefined], and off a plain object gives the
    own property of that name. *)
Inductive field : Type :=
| f_answer | f_output | f_message | f_text | f_result | f_data
| f_upserted | f_filename.

Definition field_name (f : field) : jsstring :=
  match f with
  | f_answer => js "answer"
  | f_output => js "output"
  | f_message => js "message"
  | f_text => js "text"
  | f_result => js "result"
  | f_data => js "data"
  | f_upserted => js "upserted"
  | f_filename => js "filename"
  end.

(** [v.f] on a value that is neither [null] nor [undefined]. *)
Definition own (v : value) (f : field) : value :=
  match v with
  | VObj props => match lookup (field_name f) props with
                  | Some x => x
                  | None => VUndefined
                  end
  | _ => VUndefined
  end.

Definition nullish (v : value) : bool :=
  match v with VUndefined | VNull => true | _ => false end.

(** [v.f]: a TypeError on [null] and [undefined]. *)
Definition get (v : value) (f : field) : result value :=
  if nullish v then
    Throw (TypeError (js "Cannot read properties of "
                        ++ match v with VNull => js "null" | _ => js "undefined" end
                        ++ js " (reading '" ++ field_name f ++ js "')"))
  else Ok (own v f).

(** [v?.f]: [undefined] on [null] and [undefined]. *)
Definition get_opt (v : value) (f : field) : value :=
  if nullish v then VUndefined else own v f.

(* ===================================================================== *)
(** ** getBestText (PolicyNavigatorApp.jsx, lines 11-31) *)
(* ===================================================================== *)

(** [JSON.stringify(v, null, space)].  It throws only on cyclic structures
    and BigInts, which [value] cannot hold, and returns [undefined] when the
    value serialises to nothing. *)
Definition JSON_stringify (v : value) (space : nat) : result value :=
  Ok (match serialize (gap_of space) [] v with
      | Some s => VStr s
      | None => VUndefined
      end).

(** Lines 15-24: the candidate array after [.filter(Boolean)]. *)
Definition cands (data : value) : result (list value) :=
  let? answer := get data f_answer in
  let? output := get data f_output in
  let? message := get data f_message in
  let? text := get data f_text in
  let? result := get data f_result in
  Ok (filter truthy
        [ answer; output; message; text; result;
          get_opt (get_opt data f_data) f_answer;
          get_opt (get_opt data f_data) f_output;
          get_opt (get_opt data f_data) f_message ]).

(** The function with its serialiser as a parameter, so that the [catch]
    branch can be exercised. *)
Definition getBestText_with (stringify : value -> result value) (data : value)
  : result value :=
  if negb (truthy data) then Ok (VStr [])
  else if is_string data then Ok data
  else
    let? cs := cands data in
    match cs with
    | c :: _ => let? s := ToString c in Ok (VStr s)
    | [] => rcatch (stringify data)
              (fun _ => let? s := ToString data in Ok (VStr s))
    end.

Definition getBestText (data : value) : result value :=
  getBestText_with (fun d => JSON_stringify d 2) data.

(* ===================================================================== *)
(** ** Regular expressions (the fragment the program uses) *)
(* ===================================================================== *)

Module RegExp.

(** One-character matchers: a literal, or a class of ranges, possibly
    negated. *)
Inductive atom : Type :=
| Lit (c : N)
| Class (negated : bool) (ranges : list (N * N)).

(** A pattern term: an atom, or an atom under the greedy [+]. *)
Inductive term : Type :=
| One (a : atom)
| Plus (a : atom).

Record regexp : Type := {
  terms : list term;
  anchored_end : bool;   (* a final [$], no [m] flag *)
  global : bool;         (* [g] *)
  ignoreCase : bool      (* [i] *)
}.

Definition is_ascii_letter (c : N) : bool := is_upper c || is_lower c.

(** The other case of an ASCII letter. *)
Definition swap_case (c : N) : N :=
  if is_upper c then (c + 32)%N else if is_lower c then (c - 32)%N else c.

(** Does class member [a] match input unit [c]?  Under [i] (without [u])
    both are canonicalised by upper-casing, and a unit outside ASCII never
    canonicalises into ASCII; every class member of this program is ASCII,
    so two units agree exactly when they are equal or are the two cases of
    one ASCII letter. *)
Definition unit_in (ic : bool) (lo hi c : N) : bool :=
  in_range lo hi c || (ic && is_ascii_letter c && in_range lo hi (swap_case c)).

Definition atom_matches (ic : bool) (a : atom) (c : N) : bool :=
  match a with
  | Lit x => unit_in ic x x c
  | Class neg ranges =>
      xorb neg (existsb (fun r => unit_in ic (fst r) (snd r) c) ranges)
  end.

(** Backtracking match of the terms at the start of [s]: the number of
    units consumed.  [+] is greedy: it first tries to take one more unit,
    and gives units back only when what follows fails. *)
Fixpoint match_terms (ic anch : bool) (ts : list term) (s : jsstring) {struct ts}
  : option nat :=
  match ts with
  | [] => if anch then match s with [] => Some 0 | _ => None end else Some 0
  | One a :: rest =>
      match s with
      | c :: s' => if atom_matches ic a c
                   then option_map S (match_terms ic anch rest s')
                   else None
      | [] => None
      end
  | Plus a :: rest =>
      (fix plus (s : jsstring) : option nat :=
         match s with
         | c :: s' =>
             if atom_matches ic a c then
               match plus s' with
               | Some n => Some (S n)
               | None => option_map S (match_terms ic anch rest s')
               end
             else None
         | [] => None
         end) s
  end.

Definition match_at (re : regexp) (s : jsstring) : option nat :=
  match_terms (ignoreCase re) (anchored_end re) (terms re) s.

(** Leftmost match: its start index and its length. *)
Fixpoint search (re : regexp) (s : jsstring) : option (nat * nat) :=
  match match_at re s with
  | Some n => Some (0, n)
  | None =>
      match s with
      | [] => None
      | _ :: s' => option_map (fun p => (S (fst p), snd p)) (search re s')
      end
  end.

(** Replace every match, left to right; [skip] counts the units of the
    current match still to be dropped.  An empty match keeps the unit it
    stands before and moves on by one. *)
Fixpoint replace_all (re : regexp) (rep : jsstring) (skip : nat) (s : jsstring)
  {struct s} : jsstring :=
  match skip with
  | S k => match s with
           | [] => []
           | _ :: s' => replace_all re rep k s'
           end
  | O =>
      match match_at re s with
      | Some (S n) => rep ++ match s with
                             | [] => []
                             | _ :: s' => replace_all re rep n s'
                             end
      | Some O => rep ++ match s with
                         | [] => []
                         | c :: s' => c :: replace_all re rep 0 s'
                         end
      | None => match s with
                | [] => []
                | c :: s' => c :: replace_all re rep 0 s'
                end
      end
  end.

(** [s.replace(re, rep)] for a replacement string without [$] patterns. *)
Definition replace (re : regexp) (rep : jsstring) (s : jsstring) : jsstring :=
  if global re then replace_all re rep 0 s
  else match search re s with
       | Some (i, n) => firstn i s ++ rep ++ skipn (i + n) s
       | None => s
       end.

End RegExp.

(* ===================================================================== *)
(** ** toDocId (PolicyNavigatorApp.jsx, lines 7-8) *)
(* ===================================================================== *)

Definition dot : N := 46.
Definition slash : N := 47.

(** [/\.[^/.]+$/] *)
Definition re_extension : RegExp.regexp :=
  {| RegExp.terms := [RegExp.One (RegExp.Lit dot);
                      RegExp.Plus (RegExp.Class true [(slash, slash); (dot, dot)])];
     RegExp.anchored_end := true;
     RegExp.global := false;
     RegExp.ignoreCase := false |}.

(** [/[^a-z0-9]+/gi] *)
Definition re_non_alnum : RegExp.regexp :=
  {| RegExp.terms := [RegExp.Plus (RegExp.Class true [(97, 122); (48, 57)]%N)];
     RegExp.anchored_end := false;
     RegExp.global := true;
     RegExp.ignoreCase := true |}.

(** The body of [toDocId] on a string. *)
Definition docIdOf (name : jsstring) : jsstring :=
  js "doc-"
  ++ toLowerCase
       (RegExp.replace re_non_alnum (js "-")
          (RegExp.replace re_extension [] name)).

(** [toDocId(name = "document")]: the default applies to [undefined] only;
    any other non-string has no [replace] method. *)
Definition toDocId (name : value) : result value :=
  match name with
  | VUndefined => Ok (VStr (docIdOf (js "document")))
  | VStr s => Ok (VStr (docIdOf s))
  | VNull => Throw (TypeError (js "Cannot read properties of null (reading 'replace')"))
  | _ => Throw (TypeError (js "name.replace is not a function"))
  end.

(* ===================================================================== *)
(** ** The network and the component state *)
(* ===================================================================== *)

(** A [File]: its name and its content. *)
Record file : Type := { file_name : jsstring; file_content : list N }.

Inductive payload : Type :=
| FormData (parts : list (jsstring * file))
| TextBody (text : value).

(** The arguments of one [fetch] call. *)
Record request : Type := {
  req_url : jsstring;
  req_method : jsstring;
  req_headers : list (jsstring * jsstring);
  req_body : payload
}.

(** A [Response]: its status, what [text()] resolves to and what [json()]
    resolves to (or rejects with). *)
Record response : Type := {
  status : Z;
  resp_text : jsstring;
  resp_json : result value
}.

(** [r.ok]: a status in 200..299. *)
Definition resp_ok (r : response) : bool :=
  Z.leb 200 (status r) && Z.leb (status r) 299.

Inductive ask_mode : Type := pipeline | chat.

(** The [useState] cells of [PolicyNavigatorApp], and the error a state
    updater threw while React rendered, if one did: nothing catches it, and
    the component is gone from the page. *)
Record state : Type := {
  selectedFile : option file;
  uploading : bool;
  extracted : value;
  indexedCount : value;
  autoIndex : bool;
  lastFilename : value;
  mode : ask_mode;
  question : jsstring;
  answer : value;
  loadingAsk : bool;
  raw : value;
  renderError : option exn
}.

(** The state after the first render. *)
Definition initial_state : state :=
  {| selectedFile := None; uploading := false; extracted := VStr [];
     indexedCount := VNum 0; autoIndex := true; lastFilename := VStr [];
     mode := pipeline; question := []; answer := VStr [];
     loadingAsk := false; raw := VNull; renderError := None |}.

(** The component state and the requests issued so far, oldest first. *)
Record world : Type := { ui : state; sent : list request }.

(** A handler step: it may throw, and it changes the world either way. *)
Definition M (A : Type) : Type := world -> result A * world.

Definition ret {A} (a : A) : M A := fun w => (Ok a, w).
Definition throw {A} (e : exn) : M A := fun w => (Throw e, w).
Definition lift {A} (r : result A) : M A := fun w => (r, w).

Definition bind {A B} (c : M A) (k : A -> M B) : M B :=
  fun w => match c w with
           | (Ok a, w') => k a w'
           | (Throw e, w') => (Throw e, w')
           end.

(** [try { c } catch (err) { h err }] *)
Definition try_catch {A} (c : M A) (h : exn -> M A) : M A :=
  fun w => match c w with
           | (Ok a, w') => (Ok a, w')
           | (Throw e, w') => h e w'
           end.

(** [try { c } finally { f }] *)
Definition finally {A} (c : M A) (f : M unit) : M A :=
  fun w => match c w with
           | (r, w') => match f w' with
                        | (Ok _, w'') => (r, w'')
                        | (Throw e, w'') => (Throw e, w'')
                        end
           end.

Notation "x <- c ;; k" := (bind c (fun x => k))
  (at level 100, c at next level, right associativity) : js_scope.
Notation "c ;;; k" := (bind c (fun _ => k))
  (at level 100, right associativity) : js_scope.

Definition update (f : state -> state) : M unit :=
  fun w => (Ok tt, {| ui := f (ui w); sent := sent w |}).

Definition setUploading (b : bool) : M unit :=
  update (fun s =>
    {| selectedFile := selectedFile s; uploading := b; extracted := extracted s;
       indexedCount := indexedCount s; autoIndex := autoIndex s;
       lastFilename := lastFilename s; mode := mode s; question := question s;
       answer := answer s; loadingAsk := loadingAsk s; raw := raw s; renderError := renderError s |}).

Definition setExtracted (v : value) : M unit :=
  update (fun s =>
    {| selectedFile := selectedFile s; uploading := uploading s; extracted := v;
       indexedCount := indexedCount s; autoIndex := autoIndex s;
       lastFilename := lastFilename s; mode := mode s; question := question s;
       answer := answer s; loadingAsk := loadingAsk s; raw := raw s; renderError := renderError s |}).

(** [setIndexedCount] with an updater function.  The call only queues the
    updater and never throws; React applies it to the current count when it
    renders.  No other update of the count is queued before that render, so
    the count it is applied to is the one at the call. *)
Definition setIndexedCount (f : value -> result value) : M unit :=
  update (fun s =>
    match f (indexedCount s) with
    | Ok c =>
        {| selectedFile := selectedFile s; uploading := uploading s;
           extracted := extracted s; indexedCount := c;
           autoIndex := autoIndex s; lastFilename := lastFilename s;
           mode := mode s; question := question s; answer := answer s;
           loadingAsk := loadingAsk s; raw := raw s;
           renderError := renderError s |}
    | Throw e =>
        {| selectedFile := selectedFile s; uploading := uploading s;
           extracted := extracted s; indexedCount := indexedCount s;
           autoIndex := autoIndex s; lastFilename := lastFilename s;
           mode := mode s; question := question s; answer := answer s;
           loadingAsk := loadingAsk s; raw := raw s;
           renderError := Some e |}
    end).

Definition setLastFilename (v : value) : M unit :=
  update (fun s =>
    {| selectedFile := selectedFile s; uploading := uploading s;
       extracted := extracted s; indexedCount := indexedCount s;
       autoIndex := autoIndex s; lastFilename := v; mode := mode s;
       question := question s; answer := answer s; loadingAsk := loadingAsk s;
       raw := raw s; renderError := renderError s |}).

Definition setAnswer (v : value) : M unit :=
  update (fun s =>
    {| selectedFile := selectedFile s; uploading := uploading s;
       extracted := extracted s; indexedCount := indexedCount s;
       autoIndex := autoIndex s; lastFilename := lastFilename s; mode := mode s;
       question := question s; answer := v; loadingAsk := loadingAsk s;
       raw := raw s; renderError := renderError s |}).

Definition setLoadingAsk (b : bool) : M unit :=
  update (fun s =>
    {| selectedFile := selectedFile s; uploading := uploading s;
       extracted := extracted s; indexedCount := indexedCount s;
       autoIndex := autoIndex s; lastFilename := lastFilename s; mode := mode s;
       question := question s; answer := answer s; loadingAsk := b;
       raw := raw s; renderError := renderError s |}).

Definition setRaw (v : value) : M unit :=
  update (fun s =>
    {| selectedFile := selectedFile s; uploading := uploading s;
       extracted := extracted s; indexedCount := indexedCount s;
       autoIndex := autoIndex s; lastFilename := lastFilename s; mode := mode s;
       question := question s; answer := answer s; loadingAsk := loadingAsk s;
       raw := v; renderError := renderError s |}).

(** The warning sign, its variation selector and a space: the prefix of
    every surfaced error. *)
Definition warning_marker : jsstring := [9888; 65039; 32]%N.

Definition POST : jsstring := js "POST".
Definition json_headers : list (jsstring * jsstring) :=
  [(js "Content-Type", js "application/json")].

(** [(data.text || "").trim()]: only a string has the method. *)
Definition call_trim (v : value) : result value :=
  match v with
  | VStr s => Ok (VStr (trim s))
  | _ => Throw (TypeError (js "(data.text || " ++ [34; 34]%N
                             ++ js ").trim is not a function"))
  end.

(** [body.items] of the object built at lines 81-89. *)
Definition own_items (body : value) : value :=
  match body with
  | VObj props => match lookup (js "items") props with
                  | Some x => x
                  | None => VUndefined
                  end
  | _ => VUndefined
  end.

(* ===================================================================== *)
(** ** The handlers of PolicyNavigatorApp.jsx *)
(* ===================================================================== *)

Section App.

(** [API_BASE], and the remote service: what a [fetch] of a request
    resolves to, or the error it rejects with. *)
Variable API_BASE : jsstring.
Variable net : request -> result response.

Definition fetch (rq : request) : M response :=
  fun w => (net rq, {| ui := ui w; sent := sent w ++ [rq] |}).

Definition upload_request (f : file) : request :=
  {| req_url := API_BASE ++ js "/upload"; req_method := POST;
     req_headers := []; req_body := FormData [(js "file", f)] |}.

(** The request of lines 90-94 for a given [body] object. *)
Definition json_request (path : jsstring) (body : value) : M request :=
  text <- lift (JSON_stringify body 0) ;;
  ret {| req_url := API_BASE ++ path; req_method := POST;
         req_headers := json_headers; req_body := TextBody text |}.

(** Lines 81-89. *)
Definition index_body (data : value) (f : file) : result value :=
  let? filename := get data f_filename in
  let? id := toDocId (js_or filename (VStr (file_name f))) in
  let? text := get data f_text in
  let? filename' := get data f_filename in
  Ok (VObj [(js "items",
             VArr [VObj [(js "id", id);
                         (js "text", text);
                         (js "meta",
                          VObj [(js "filename", js_or filename' (VStr (file_name f)));
                                (js "source", VStr (js "upload"))])]])]).

(** [body.items.length] *)
Definition items_length (body : value) : value :=
  match own_items body with
  | VArr xs => VNum (Z.of_nat (List.length xs))
  | _ => VUndefined
  end.

(** Lines 72-98: the [try] block of [handleUpload], for the selected file
    and the [autoIndex] flag the handler closed over. *)
Definition upload_try (f : file) (auto : bool) : M unit :=
  r <- fetch (upload_request f) ;;
  if negb (resp_ok r)
  then throw (Error (js "Upload failed: " ++ num_to_string (status r)))
  else
    data <- lift (resp_json r) ;;
    text <- lift (get data f_text) ;;
    setExtracted (js_or text (VStr [])) ;;;
    filename <- lift (get data f_filename) ;;
    setLastFilename (js_or filename (VStr (file_name f))) ;;;
    go <- (if auto
           then text' <- lift (get data f_text) ;;
                t <- lift (call_trim (js_or text' (VStr []))) ;;
                ret (truthy t)
           else ret false) ;;
    if go : bool then
      body <- lift (index_body data f) ;;
      rq <- json_request (js "/index") body ;;
      ix <- fetch rq ;;
      if negb (resp_ok ix)
      then throw (Error (js "Index failed: " ++ num_to_string (status ix)))
      else
        j <- lift (resp_json ix) ;;
        setIndexedCount
          (fun c => let? upserted := get j f_upserted in
                    js_add c (js_or upserted (items_length body)))
    else ret tt.

(** Lines 64-104. *)
Definition handleUpload : M unit :=
  fun w =>
    match selectedFile (ui w) with
    | None => ret tt w
    | Some f =>
        (setUploading true ;;;
         setExtracted (VStr []) ;;;
         setAnswer (VStr []) ;;;
         setRaw VNull ;;;
         finally
           (try_catch (upload_try f (autoIndex (ui w)))
              (fun err => setExtracted (VStr (warning_marker ++ exn_message err))))
           (setUploading false)) w
    end.

Definition ask_body (q : jsstring) : value :=
  VObj [(js "question", VStr (trim q)); (js "extra_inputs", VObj [])].

Definition chat_body (q : jsstring) : value :=
  VObj [(js "message", VStr (trim q)); (js "llm_id", VStr [])].

(** Lines 113-131: the [try] block of [handleAsk]. *)
Definition ask_try (m : ask_mode) (q : jsstring) : M unit :=
  match m with
  | pipeline =>
      rq <- json_request (js "/ask") (ask_body q) ;;
      r <- fetch rq ;;
      j <- lift (resp_json r) ;;
      setRaw j ;;;
      a <- lift (getBestText j) ;;
      setAnswer a
  | chat =>
      rq <- json_request (js "/chat") (chat_body q) ;;
      r <- fetch rq ;;
      j <- lift (resp_json r) ;;
      setRaw j ;;;
      a <- lift (getBestText j) ;;
      setAnswer a
  end.

(** Lines 107-137. *)
Definition handleAsk : M unit :=
  fun w =>
    if negb (truthy (VStr (trim (question (ui w))))) then ret tt w
    else
      (setLoadingAsk true ;;;
       setAnswer (VStr []) ;;;
       setRaw VNull ;;;
       finally
         (try_catch (ask_try (mode (ui w)) (question (ui w)))
            (fun err => setAnswer (VStr (warning_marker ++ exn_message err))))
         (setLoadingAsk false)) w.

End App.

(* ===================================================================== *)
(** ** The gateway wrappers of api.js *)
(* ===================================================================== *)

Module Api.
Section Gateway.

Variable API_URL : jsstring.
Variable net : request -> result response.

(** [if (!res.ok) throw new Error(await res.text()); return res.json();] *)
Definition checked (res : response) : M value :=
  if negb (resp_ok res) then throw (Error (resp_text res))
  else lift (resp_json res).

Definition uploadFile (f : file) : M value :=
  res <- fetch net {| req_url := API_URL ++ js "/upload"; req_method := POST;
                      req_headers := []; req_body := FormData [(js "file", f)] |} ;;
  checked res.

Definition post_json (path : jsstring) (body : value) : M value :=
  text <- lift (JSON_stringify body 0) ;;
  res <- fetch net {| req_url := API_URL ++ path; req_method := POST;
                      req_headers := json_headers; req_body := TextBody text |} ;;
  checked res.

Definition indexItems (items : value) : M value :=
  post_json (js "/index") (VObj [(js "items", items)]).

Definition ask (question : value) : M value :=
  post_json (js "/ask") (VObj [(js "question", question)]).

End Gateway.
End Api.

(* ===================================================================== *)
(** ** The words of the specification *)
(* ===================================================================== *)

Definition is_alnum (c : N) : bool := is_upper c || is_lower c || is_digit c.

(** Can [r] be an extension after a dot: something, without a dot or a
    slash in it. *)
Definition extension_tail (r : jsstring) : bool :=
  match r with
  | [] => false
  | _ => forallb (fun c => negb (N.eqb c slash || N.eqb c dot)) r
  end.

(** "Extension stripped": the name up to the dot that starts its
    extension. *)
Fixpoint strip_extension (s : jsstring) : jsstring :=
  match s with
  | [] => []
  | c :: r => if N.eqb c dot && extension_tail r then []
              else c :: strip_extension r
  end.

(** "Non-alphanumeric runs collapsed to single hyphens"; [in_run] says that
    the previous unit already belonged to the current run. *)
Fixpoint hyphenate_from (in_run : bool) (s : jsstring) : jsstring :=
  match s with
  | [] => []
  | c :: r => if is_alnum c then c :: hyphenate_from false r
              else if in_run then hyphenate_from true r
              else hyphen :: hyphenate_from true r
  end.

Definition hyphenate (s : jsstring) : jsstring := hyphenate_from false s.

(** The characters of a slug: lowercase letters, digits and the hyphen. *)
Definition slug_unit (c : N) : bool := is_lower c || is_digit c || N.eqb c hyphen.

(** The probing order of the response normaliser, as paths of field names:
    five top-level fields, then three under [data]. *)
Definition top_fields : list field :=
  [f_answer; f_output; f_message; f_text; f_result].
Definition nested_fields : list field := [f_answer; f_output; f_message].

Definition probe_order : list (list field) :=
  map (fun f => [f]) top_fields ++ map (fun f => [f_data; f]) nested_fields.

(** Follow a path, reading an absent step as [undefined]. *)
Definition probe (v : value) (path : list field) : value :=
  fold_left get_opt path v.

(** The first truthy value along the probing order. *)
Definition first_candidate (v : value) : option value :=
  find truthy (map (probe v) probe_order).

(** An object without its property [k]. *)
Definition remove_prop (k : jsstring) (props : list (jsstring * value))
  : list (jsstring * value) :=
  filter (fun kv => negb (str_eqb k (fst kv))) props.

(** An object with the value of its property [k] replaced. *)
Definition replace_prop (k : jsstring) (v : value) (props : list (jsstring * value))
  : list (jsstring * value) :=
  map (fun kv => if str_eqb k (fst kv) then (fst kv, v) else kv) props.

(** Length of the run of non-alphanumeric units [s] starts with. *)
Fixpoint run_length (s : jsstring) : nat :=
  match s with
  | c :: r => if is_alnum c then 0 else S (run_length r)
  | [] => 0
  end.

(** The request [json_request] builds. *)
Definition posted (API_BASE path : jsstring) (body : value) : request :=
  {| req_url := API_BASE ++ path; req_method := POST;
     req_headers := json_headers;
     req_body := TextBody (match serialize (gap_of 0) [] body with
                           | Some s => VStr s
                           | None => VUndefined
                           end) |}.

(** The ways the indexing call of lines 90-96 fails, with the error thrown:
    the fetch rejects, the status is not a success, or the body does not
    parse. *)
Inductive index_fails : result response -> exn -> Prop :=
| fails_network e : index_fails (Throw e) e
| fails_status ix :
    resp_ok ix = false ->
    index_fails (Ok ix) (Error (js "Index failed: " ++ num_to_string (status ix)))
| fails_body ix e :
    resp_ok ix = true -> resp_json ix = Throw e -> index_fails (Ok ix) e.

(** The upload workflow up to the indexing call: extraction succeeded
    with a non-blank text, auto-index is on and the item could be built. *)
Record extracted_for_index (API_BASE : jsstring)
       (net : request -> result response) (w : world) (f : file) (data body : value)
       (t : jsstring) : Prop := {
  efi_file : selectedFile (ui w) = Some f;
  efi_auto : autoIndex (ui w) = true;
  efi_response : exists r, net (upload_request API_BASE f) = Ok r
                           /\ resp_ok r = true /\ resp_json r = Ok data;
  efi_text : own data f_text = VStr t;
  efi_non_blank : whitespace_only t = false;
  efi_body : index_body data f = Ok body
}.

(* ===================================================================== *)
(** ** Sample inputs *)
(* ===================================================================== *)

(** The extraction result of the example. *)
Definition report_upload : value :=
  VObj [(js "text", VStr (js "hello")); (js "filename", VStr (js "Report v1.pdf"))].

(** The object of lines 81-89 built from it. *)
Definition report_index_body : value :=
  VObj [(js "items",
         VArr [VObj [(js "id", VStr (js "doc-report-v1"));
                     (js "text", VStr (js "hello"));
                     (js "meta",
                      VObj [(js "filename", VStr (js "Report v1.pdf"));
                            (js "source", VStr (js "upload"))])]])].

(** A serialiser that fails the way [JSON.stringify] does on a cycle. *)
Definition failing_stringify (_ : value) : result value :=
  Throw (TypeError (js "Converting circular structure to JSON")).

(** The default [API_BASE]. *)
Definition local_base : jsstring := js "http://127.0.0.1:8000".

Definition report_file : file :=
  {| file_name := js "Report v1.pdf"; file_content := [] |}.

(** A response whose body is the JSON text of [v]. *)
Definition json_response (st : Z) (v : value) : response :=
  {| status := st;
     resp_text := match serialize (gap_of 0) [] v with
                  | Some s => s
                  | None => []
                  end;
     resp_json := Ok v |}.

(** A response whose body is plain text, which [json()] rejects. *)
Definition text_response (st : Z) (body : jsstring) : response :=
  {| status := st; resp_text := body;
     resp_json := Throw (Exn (js "SyntaxError") (js "Unexpected token in JSON")) |}.

(** A service that extracts "hello" from "Report v1.pdf" and answers the
    other calls with [other]. *)
Definition service (other : response) (rq : request) : result response :=
  if str_eqb (req_url rq) (local_base ++ js "/upload")
  then Ok (json_response 200 report_upload)
  else Ok other.

(** The component with "Report v1.pdf" selected and a question typed. *)
Definition ready (auto : bool) (m : ask_mode) (q : jsstring) : world :=
  {| ui := {| selectedFile := Some report_file; uploading := false;
              extracted := VStr []; indexedCount := VNum 0; autoIndex := auto;
              lastFilename := VStr []; mode := m; question := q;
              answer := VStr []; loadingAsk := false; raw := VNull;
              renderError := None |};
     sent := [] |}.

(** The same response under another status. *)
Definition with_status (st : Z) (r : response) : response :=
  {| status := st; resp_text := resp_text r; resp_json := resp_json r |}.

Definition server_error : response :=
  json_response 500 (VObj [(js "detail", VStr (js "Internal Server Error"))]).

(* ===================================================================== *)
(** ** The rest of PolicyNavigatorApp.jsx *)
(* ===================================================================== *)

(** The strings [Array.prototype.join] puts together: [null] and
    [undefined] elements count as empty strings, the others go through
    ToString, left to right. *)
Fixpoint element_strings (xs : list value) : result (list jsstring) :=
  match xs with
  | [] => Ok []
  | x :: r =>
      let? s := match x with
                | VUndefined | VNull => Ok []
                | _ => ToString x
                end in
      let? rest := element_strings r in
      Ok (s :: rest)
  end.

Definition array_join (sep : jsstring) (xs : list value) : result jsstring :=
  let? parts := element_strings xs in
  Ok (join sep parts).

(** [classNames(...xs)] (lines 33-35): [xs.filter(Boolean).join(" ")]. *)
Definition classNames (xs : list value) : result jsstring :=
  array_join (js " ") (filter truthy xs).

Definition setSelectedFile (f : option file) : M unit :=
  update (fun s =>
    {| selectedFile := f; uploading := uploading s; extracted := extracted s;
       indexedCount := indexedCount s; autoIndex := autoIndex s;
       lastFilename := lastFilename s; mode := mode s; question := question s;
       answer := answer s; loadingAsk := loadingAsk s; raw := raw s; renderError := renderError s |}).

Definition setAutoIndex (b : bool) : M unit :=
  update (fun s =>
    {| selectedFile := selectedFile s; uploading := uploading s;
       extracted := extracted s; indexedCount := indexedCount s; autoIndex := b;
       lastFilename := lastFilename s; mode := mode s; question := question s;
       answer := answer s; loadingAsk := loadingAsk s; raw := raw s; renderError := renderError s |}).

Definition setMode (m : ask_mode) : M unit :=
  update (fun s =>
    {| selectedFile := selectedFile s; uploading := uploading s;
       extracted := extracted s; indexedCount := indexedCount s;
       autoIndex := autoIndex s; lastFilename := lastFilename s; mode := m;
       question := question s; answer := answer s; loadingAsk := loadingAsk s;
       raw := raw s; renderError := renderError s |}).

Definition setQuestion (q : jsstring) : M unit :=
  update (fun s =>
    {| selectedFile := selectedFile s; uploading := uploading s;
       extracted := extracted s; indexedCount := indexedCount s;
       autoIndex := autoIndex s; lastFilename := lastFilename s; mode := mode s;
       question := q; answer := answer s; loadingAsk := loadingAsk s;
       raw := raw s; renderError := renderError s |}).

(** [files?.[0]] on the [files] of an event: [None] stands for an
    [undefined] list as well as for an empty one. *)
Definition first_file (files : option (list file)) : option file :=
  match files with
  | Some (f :: _) => Some f
  | _ => None
  end.

(** The component together with its [dragOver] cell. *)
Record page : Type := { dragOver : bool; component : world }.

(** [handleDrop] (lines 56-62) on the files of the drop event. *)
Definition handleDrop (files : option (list file)) (p : page) : page :=
  {| dragOver := false;
     component := match first_file files with
            | Some f => snd (setSelectedFile (Some f) (component p))
            | None => component p
            end |}.

(** The [onChange] of the file input (line 194):
    [setSelectedFile(e.target.files?.[0] || null)]. *)
Definition handleFileChange (files : option (list file)) : M unit :=
  setSelectedFile (first_file files).



(** The dash shown for an empty cell. *)
Definition em_dash : jsstring := [8212%N].

(** Line 231: [extracted || dash]. *)
Definition shown_extracted (s : state) : value := js_or (extracted s) (VStr em_dash).

(** Line 290: [answer || dash]. *)
Definition shown_answer (s : state) : value := js_or (answer s) (VStr em_dash).

(** Line 298: [raw ? JSON.stringify(raw, null, 2) : dash]. *)
Definition shown_raw (s : state) : result value :=
  if truthy (raw s) then JSON_stringify (raw s) 2 else Ok (VStr em_dash).

(** The endpoint and the request body of a mode (lines 113-127). *)
Definition mode_path (m : ask_mode) : jsstring :=
  match m with pipeline => js "/ask" | chat => js "/chat" end.

Definition mode_body (m : ask_mode) (q : jsstring) : value :=
  match m with pipeline => ask_body q | chat => chat_body q end.

Definition is_object (v : value) : bool :=
  match v with VObj _ => true | _ => false end.

(** No two hyphens next to each other. *)
Fixpoint no_double_hyphen (s : jsstring) : bool :=
  match s with
  | c :: r => match r with
              | d :: _ => negb (N.eqb c hyphen && N.eqb d hyphen) && no_double_hyphen r
              | [] => true
              end
  | [] => true
  end.

Definition starts_with_hyphen (s : jsstring) : bool :=
  match s with c :: _ => N.eqb c hyphen | [] => false end.

(** The item [handleUpload] sends to the index for the file name [fn]. *)
Definition index_item (fn : jsstring) (text : value) : value :=
  VObj [(js "items",
         VArr [VObj [(js "id", VStr (docIdOf fn));
                     (js "text", text);
                     (js "meta",
                      VObj [(js "filename", VStr fn);
                            (js "source", VStr (js "upload"))])]])].

(** The ways the extraction call of lines 74-76 fails, with the error
    thrown: the fetch rejects, the status is not a success, or the body does
    not parse. *)
Inductive upload_fails : result response -> exn -> Prop :=
| upload_fails_network e : upload_fails (Throw e) e
| upload_fails_status r :
    resp_ok r = false ->
    upload_fails (Ok r) (Error (js "Upload failed: " ++ num_to_string (status r)))
| upload_fails_body r e :
    resp_ok r = true -> resp_json r = Throw e -> upload_fails (Ok r) e.

(** The request of [handleAsk] for a mode and a question. *)
Definition ask_request (API_BASE : jsstring) (m : ask_mode) (q : jsstring) : request :=
  posted API_BASE (mode_path m) (mode_body m q).

(** A run of the upload workflow in which both calls succeed: a file is
    selected, auto-index is on, the extraction returns the non-blank text [t]
    and the file name [fn] (its own [filename], or the name of the selected
    file when it has none), and the index call for that item returns the
    JSON value [j]. *)
Record indexed_run (API_BASE : jsstring) (net : request -> result response)
       (w : world) (f : file) (data : value) (t fn : jsstring)
       (ix : response) (j : value) : Prop := {
  ir_file : selectedFile (ui w) = Some f;
  ir_auto : autoIndex (ui w) = true;
  ir_upload : exists r, net (upload_request API_BASE f) = Ok r
                        /\ resp_ok r = true /\ resp_json r = Ok data;
  ir_text : own data f_text = VStr t;
  ir_non_blank : whitespace_only t = false;
  ir_filename : js_or (own data f_filename) (VStr (file_name f)) = VStr fn;
  ir_index : net (posted API_BASE (js "/index") (index_item fn (VStr t))) = Ok ix;
  ir_ok : resp_ok ix = true;
  ir_json : resp_json ix = Ok j
}.

(** The updater of line 97 for the body [j] of the index reply and a batch
    of one item, applied to the count [c]. *)
Definition next_count (j c : value) : result value :=
  let? upserted := get j f_upserted in
  js_add c (js_or upserted (VNum 1)).

(** What [handleAsk] leaves in the [answer] and [raw] cells for a reply of
    the service (lines 119-121 and 132-133). *)
Definition ask_outcome (reply : result response) : value * value :=
  match reply with
  | Throw e => (VStr (warning_marker ++ exn_message e), VNull)
  | Ok r =>
      match resp_json r with
      | Throw e => (VStr (warning_marker ++ exn_message e), VNull)
      | Ok j =>
          match getBestText j with
          | Ok a => (a, j)
          | Throw e => (VStr (warning_marker ++ exn_message e), j)
          end
      end
  end.

(** Sample replies of the index endpoint. *)
Definition upserted_two : response :=
  json_response 200 (VObj [(js "upserted", VNum 2)]).

Definition upserted_text : response :=
  json_response 200 (VObj [(js "upserted", VStr (js "3"))]).

(** A service that cannot be reached. *)
Definition unreachable (_ : request) : result response :=
  Throw (TypeError (js "Failed to fetch")).

(** A service that answers every call with the same response. *)
Definition always (r : response) (_ : request) : result response := Ok r.

(* ===================================================================== *)
(** ** The standalone components: UploadPanel.jsx, AskForm, AnswerCard.jsx *)
(* ===================================================================== *)

(** A component beside the gateway: its own cells, the arguments its
    parent's callback was called with (oldest first), and the world the
    wrappers of api.js act on. *)
Record scene (S : Type) : Type := {
  cells : S;
  reported : list value;
  outside : world
}.

(** A step of such a component. *)
Definition C (S A : Type) : Type := scene S -> result A * scene S.

Definition cret {S A} (a : A) : C S A := fun sc => (Ok a, sc).
Definition cpure {S A} (r : result A) : C S A := fun sc => (r, sc).

Definition cbind {S A B} (c : C S A) (k : A -> C S B) : C S B :=
  fun sc => match c sc with
            | (Ok a, sc') => k a sc'
            | (Throw e, sc') => (Throw e, sc')
            end.

(** [try { c } finally { f }] *)
Definition cfinally {S A} (c : C S A) (f : C S unit) : C S A :=
  fun sc => match c sc with
            | (r, sc') => match f sc' with
                          | (Ok _, sc'') => (r, sc'')
                          | (Throw e, sc'') => (Throw e, sc'')
                          end
            end.

(** A call of a gateway wrapper. *)
Definition call {S A} (c : M A) : C S A :=
  fun sc => match c (outside sc) with
            | (r, w') => (r, {| cells := cells sc; reported := reported sc;
                                outside := w' |})
            end.

Definition cset {S} (f : S -> S) : C S unit :=
  fun sc => (Ok tt, {| cells := f (cells sc); reported := reported sc;
                       outside := outside sc |}).

(** [callback?.(arg)]: without a callback the argument is not even
    evaluated. *)
Definition notify {S} (provided : bool) (arg : C S value) : C S unit :=
  if provided
  then cbind arg (fun v sc => (Ok tt, {| cells := cells sc;
                                         reported := reported sc ++ [v];
                                         outside := outside sc |}))
  else cret tt.

Notation "x <~ c ;; k" := (cbind c (fun x => k))
  (at level 100, c at next level, right associativity) : js_scope.
Notation "c ;;~ k" := (cbind c (fun _ => k))
  (at level 100, right associativity) : js_scope.

(** The horizontal ellipsis of the status texts. *)
Definition ellipsis : jsstring := [8230%N].

Module UploadPanel.

Record cells_of : Type := { file_ : option file; status : jsstring }.

Definition setStatus (s : jsstring) : C cells_of unit :=
  cset (fun p => {| file_ := file_ p; status := s |}).

Section Run.

Variable API_URL : jsstring.
Variable net : request -> result response.
(** What [crypto.randomUUID()] returns in this run, and whether the parent
    passed [onIndexed]. *)
Variable uuid : jsstring.
Variable onIndexed : bool.

(** The batch of line 14. *)
Definition items (text source : value) : value :=
  VArr [VObj [(js "id", VStr uuid); (js "text", text);
              (js "meta", VObj [(js "source", source)])]].

(** [handleUpload] of UploadPanel.jsx (lines 8-17). *)
Definition handleUpload : C cells_of unit :=
  fun sc =>
    match file_ (cells sc) with
    | None => cret tt sc
    | Some f =>
        (setStatus (js "Extracting text" ++ ellipsis) ;;~
         up <~ call (Api.uploadFile API_URL net f) ;;
         name <~ cpure (get up f_filename) ;;
         shown <~ cpure (ToString name) ;;
         setStatus (js "Indexing " ++ shown ++ ellipsis) ;;~
         text <~ cpure (get up f_text) ;;
         source <~ cpure (get up f_filename) ;;
         _ <~ call (Api.indexItems API_URL net (items text source)) ;;
         name' <~ cpure (get up f_filename) ;;
         shown' <~ cpure (ToString name') ;;
         setStatus (js "Indexed " ++ shown') ;;~
         notify onIndexed (cret (VStr uuid))) sc
    end.

End Run.
End UploadPanel.

Module AskForm.

Record cells_of : Type := { q : jsstring; busy : bool }.

Definition setBusy (b : bool) : C cells_of unit :=
  cset (fun p => {| q := q p; busy := b |}).

Section Run.

Variable API_URL : jsstring.
Variable net : request -> result response.
(** Whether the parent passed [onAnswer]. *)
Variable onAnswer : bool.

(** [submit] (lines 8-16), after [e.preventDefault()]. *)
Definition submit : C cells_of unit :=
  fun sc =>
    if negb (truthy (VStr (trim (q (cells sc))))) then cret tt sc
    else
      (setBusy true ;;~
       cfinally
         (res <~ call (Api.ask API_URL net (VStr (q (cells sc)))) ;;
          notify onAnswer (cpure (get res f_data)))
         (setBusy false)) sc.

End Run.
End AskForm.

Module AnswerCard.

(** Line 4: [data.output || data.answer || JSON.stringify(data, null, 2)]. *)
Definition output (data : value) : result value :=
  let? o := get data f_output in
  if truthy o then Ok o
  else let? a := get data f_answer in
       if truthy a then Ok a else JSON_stringify data 2.

End AnswerCard.

(** The component before anything was done, beside a world. *)
Definition fresh_scene {S : Type} (c : S) (w : world) : scene S :=
  {| cells := c; reported := []; outside := w |}.

(** What a gateway wrapper settles to for a reply of the service: the
    rejection of the fetch, the error for a non-success status, or what
    [json()] gives. *)
Definition settled (reply : result response) : result value :=
  match reply with
  | Throw e => Throw e
  | Ok res => if resp_ok res then resp_json res else Throw (Error (resp_text res))
  end.

(** The world after one more request. *)
Definition after_request (w : world) (rq : request) : world :=
  {| ui := ui w; sent := sent w ++ [rq] |}.

(** The upload panel with "Report v1.pdf" chosen, and the ask form with a
    question typed. *)
Definition panel_ready : scene UploadPanel.cells_of :=
  fresh_scene {| UploadPanel.file_ := Some report_file; UploadPanel.status := [] |}
    (ready true pipeline []).

Definition form_ready (question : jsstring) : scene AskForm.cells_of :=
  fresh_scene {| AskForm.q := question; AskForm.busy := false |}
    (ready true pipeline []).


(* ===================================================================== *)
(** ** Values that cannot be converted to a string *)
(* ===================================================================== *)

(** The error of [String(v)], of a template literal and of [+] on an object
    that has a property of its own called [toString]. *)
Definition not_primitive : exn :=
  TypeError (js "Cannot convert object to primitive value").

(** The JSON value [{"toString": 1}]. *)
Definition own_toString : value := VObj [(js "toString", VNum 1)].

(** The JSON response [{"answer": {"toString": 1}}]. *)
Definition unprintable_answer : value := VObj [(js "answer", own_toString)].

(** A property name inside a JSON text, and a text given line by line. *)
Definition quoted (s : string) : jsstring := (34%N :: js s) ++ [34%N].
Definition text_lines (ls : list jsstring) : jsstring := join [10%N] ls.

(** The JSON response [{"citations": [7, "p. 2"], "done": true}]. *)
Definition cited : value :=
  VObj [(js "citations", VArr [VNum 7; VStr (js "p. 2")]);
        (js "done", VBool true)].


Definition unprintable_upserted : response :=
  json_response 200 (VObj [(js "upserted", own_toString)]).

(** The JSON response
    [{"note": "say \"hi\"\n", "none": null, "empty": {}, "list": []}]. *)
Definition annotated : value :=
  VObj [(js "note", VStr (js "say " ++ [34%N] ++ js "hi" ++ [34%N; 10%N]));
        (js "none", VNull);
        (js "empty", VObj []);
        (js "list", VArr [])].

(* ===================================================================== *)
(** ** Strings: equality and trimming *)
(* ===================================================================== *)

Lemma str_eqb_refl (a : jsstring) : str_eqb a a = true.
Proof.
  induction a as [|x a IH]; simpl; [reflexivity|].
  now rewrite N.eqb_refl, IH.
Qed.

Lemma str_eqb_eq (a b : jsstring) : str_eqb a b = true <-> a = b.
Proof.
  split.
  - revert b. induction a as [|x a IH]; intros [|y b]; simpl; try discriminate; auto.
    intros H. apply andb_true_iff in H as [Hx Hr].
    apply N.eqb_eq in Hx. subst. f_equal. now apply IH.
  - intros ->. apply str_eqb_refl.
Qed.

Lemma trimStart_nil_iff (s : jsstring) :
  trimStart s = [] <-> whitespace_only s = true.
Proof.
  induction s as [|c r IH]; simpl.
  - tauto.
  - destruct (is_white_space c); simpl.
    + exact IH.
    + split; discriminate.
Qed.

Lemma whitespace_only_rev (s : jsstring) :
  whitespace_only (rev s) = whitespace_only s.
Proof.
  unfold whitespace_only.
  induction s as [|c r IH]; simpl; [reflexivity|].
  rewrite forallb_app, IH. simpl. rewrite andb_true_r. apply andb_comm.
Qed.

Lemma trimStart_keeps_non_blank (s : jsstring) :
  whitespace_only s = false -> whitespace_only (trimStart s) = false.
Proof.
  induction s as [|c r IH]; simpl; [discriminate|].
  destruct (is_white_space c) eqn:E; simpl.
  - exact IH.
  - now rewrite E.
Qed.

(** [trim] leaves nothing exactly of the empty and whitespace-only strings. *)
Lemma trim_nil_iff (s : jsstring) : trim s = [] <-> whitespace_only s = true.
Proof.
  unfold trim, trimEnd. split.
  - intros H.
    destruct (whitespace_only s) eqn:E; [reflexivity|exfalso].
    apply trimStart_keeps_non_blank in E.
    assert (H' : trimStart (rev (trimStart s)) = []).
    { destruct (trimStart (rev (trimStart s))) as [|x l]; [reflexivity|].
      simpl in H. now destruct (rev l). }
    apply trimStart_nil_iff in H'. rewrite whitespace_only_rev in H'. congruence.
  - intros H. apply trimStart_nil_iff in H. now rewrite H.
Qed.

Lemma truthy_trim (s : jsstring) :
  truthy (VStr (trim s)) = negb (whitespace_only s).
Proof.
  destruct (whitespace_only s) eqn:E; simpl.
  - apply trim_nil_iff in E. now rewrite E.
  - destruct (trim s) eqn:T; [|reflexivity].
    apply trim_nil_iff in T. congruence.
Qed.

(* ===================================================================== *)
(** ** The two patterns of toDocId *)
(* ===================================================================== *)

Section Patterns.
Import RegExp.

(** Unfolding of the greedy [+] on an empty and on a non-empty input. *)
Lemma match_plus_nil ic anch a rest :
  match_terms ic anch (Plus a :: rest) [] = None.
Proof. reflexivity. Qed.

Lemma match_plus_cons ic anch a rest c s :
  match_terms ic anch (Plus a :: rest) (c :: s) =
  if atom_matches ic a c then
    match match_terms ic anch (Plus a :: rest) s with
    | Some n => Some (S n)
    | None => option_map S (match_terms ic anch rest s)
    end
  else None.
Proof. reflexivity. Qed.

Ltac cmp :=
  repeat match goal with
         | |- context [N.leb ?a ?b] => destruct (N.leb_spec a b)
         | |- context [N.eqb ?a ?b] => destruct (N.eqb_spec a b)
         end.

(** [[^a-z0-9]] under [i] is "not an ASCII letter or digit". *)
Lemma non_alnum_class (c : N) :
  atom_matches true (Class true [(97, 122); (48, 57)]%N) c = negb (is_alnum c).
Proof.
  unfold atom_matches, existsb, unit_in, is_ascii_letter, swap_case, is_alnum,
    is_upper, is_lower, is_digit, in_range, fst, snd.
  cmp; simpl; cmp; simpl in *; try reflexivity; try lia.
Qed.

(** [\.] *)
Lemma dot_literal (c : N) : atom_matches false (Lit dot) c = N.eqb c dot.
Proof.
  unfold atom_matches, unit_in, in_range, dot.
  cmp; simpl; try reflexivity; try lia.
Qed.

(** [[^/.]] *)
Lemma not_slash_dot_class (c : N) :
  atom_matches false (Class true [(slash, slash); (dot, dot)]) c
  = negb (N.eqb c slash || N.eqb c dot).
Proof.
  unfold atom_matches, existsb, unit_in, in_range, fst, snd, slash, dot.
  cmp; simpl; try reflexivity; try lia.
Qed.

(** [/[^a-z0-9]+/gi] matches, at a position, the whole run found there. *)
Lemma match_non_alnum (s : jsstring) :
  match_at re_non_alnum s =
  match run_length s with
  | 0 => None
  | n => Some n
  end.
Proof.
  unfold match_at, re_non_alnum; cbn [terms anchored_end ignoreCase].
  induction s as [|c r IH].
  - reflexivity.
  - rewrite match_plus_cons, non_alnum_class, IH.
    cbn [run_length match_terms option_map].
    destruct (is_alnum c); cbn [negb]; [reflexivity|].
    now destruct (run_length r).
Qed.

Lemma replace_all_non_alnum (s : jsstring) :
  replace_all re_non_alnum [hyphen] 0 s = hyphenate_from false s
  /\ replace_all re_non_alnum [hyphen] (run_length s) s = hyphenate_from true s.
Proof.
  induction s as [|c r [IH0 IHr]].
  - split; reflexivity.
  - assert (Hm := match_non_alnum (c :: r)).
    cbn [run_length hyphenate_from] in *.
    destruct (is_alnum c).
    + cbn [replace_all]. rewrite Hm, IH0. split; reflexivity.
    + cbn [replace_all]. rewrite Hm, IHr. split; reflexivity.
Qed.

(** The global replacement collapses each run into one hyphen. *)
Lemma replace_non_alnum (s : jsstring) :
  replace re_non_alnum (js "-") s = hyphenate s.
Proof.
  unfold replace. cbn [global re_non_alnum].
  apply (replace_all_non_alnum s).
Qed.

(** [[^/.]+$] from a position: everything up to the end, when there is
    something and no slash or dot in it. *)
Lemma match_tail (s : jsstring) :
  match_terms false true [Plus (Class true [(slash, slash); (dot, dot)])] s
  = if extension_tail s then Some (List.length s) else None.
Proof.
  induction s as [|c r IH].
  - reflexivity.
  - rewrite match_plus_cons, not_slash_dot_class, IH.
    unfold extension_tail. cbn [forallb List.length match_terms option_map].
    destruct (negb (N.eqb c slash || N.eqb c dot)); cbn [andb]; [|reflexivity].
    destruct r as [|d r']; [reflexivity|].
    cbn [forallb].
    destruct (negb (N.eqb d slash || N.eqb d dot) && forallb _ r'); reflexivity.
Qed.

Lemma match_extension (s : jsstring) :
  match_at re_extension s =
  match s with
  | c :: r => if N.eqb c dot && extension_tail r
              then Some (S (List.length r)) else None
  | [] => None
  end.
Proof.
  unfold match_at, re_extension; cbn [terms anchored_end ignoreCase].
  destruct s as [|c r]; [reflexivity|].
  cbn [match_terms]. rewrite dot_literal.
  destruct (N.eqb c dot); cbn [andb]; [|reflexivity].
  change (option_map S (match_terms false true
                          [Plus (Class true [(slash, slash); (dot, dot)])] r)
          = if extension_tail r then Some (S (List.length r)) else None).
  rewrite match_tail. now destruct (extension_tail r).
Qed.

(** The leftmost match of [/\.[^/.]+$/] runs to the end of the string. *)
Lemma search_extension (s : jsstring) :
  match search re_extension s with
  | Some (i, n) => firstn i s = strip_extension s /\ i + n = List.length s
  | None => strip_extension s = s
  end.
Proof.
  induction s as [|c r IH].
  - reflexivity.
  - cbn [search]. rewrite match_extension. cbn [strip_extension].
    destruct (N.eqb c dot && extension_tail r).
    + split; reflexivity.
    + destruct (search re_extension r) as [[i n]|]; cbn [option_map fst snd].
      * destruct IH as [IH1 IH2]. cbn [firstn List.length].
        split; [now rewrite IH1 | lia].
      * now rewrite IH.
Qed.

Lemma replace_extension (s : jsstring) :
  replace re_extension [] s = strip_extension s.
Proof.
  unfold replace. cbn [global re_extension].
  change (search _ s) with (search re_extension s).
  assert (H := search_extension s).
  destruct (search re_extension s) as [[i n]|].
  - destruct H as [H1 H2]. rewrite H2, skipn_all, H1. now rewrite app_nil_r.
  - now rewrite H.
Qed.

End Patterns.

(* ===================================================================== *)
(** ** Document ids *)
(* ===================================================================== *)

Lemma docIdOf_spec (name : jsstring) :
  docIdOf name = js "doc-" ++ toLowerCase (hyphenate (strip_extension name)).
Proof.
  unfold docIdOf. now rewrite replace_extension, replace_non_alnum.
Qed.

(** What [hyphenate] lets through: the alphanumeric units of its input, and
    hyphens. *)
Lemma hyphenate_units (b : bool) (s : jsstring) :
  Forall (fun c => is_alnum c = true \/ c = hyphen) (hyphenate_from b s).
Proof.
  revert b. induction s as [|c r IH]; intros b; cbn [hyphenate_from].
  - constructor.
  - destruct (is_alnum c) eqn:E.
    + constructor; [now left | apply IH].
    + destruct b; [apply IH | constructor; [now right | apply IH]].
Qed.

Lemma lower_unit_slug (c : N) :
  is_alnum c = true \/ c = hyphen -> slug_unit (lower_unit c) = true.
Proof.
  unfold is_alnum, slug_unit, lower_unit, is_upper, is_lower, is_digit, in_range, hyphen.
  intros [H| ->]; [|reflexivity].
  repeat match goal with
         | _ : context [N.leb ?a ?b] |- _ => destruct (N.leb_spec a b)
         end; simpl in *; try discriminate;
  repeat match goal with
         | |- context [N.leb ?a ?b] => destruct (N.leb_spec a b)
         end; simpl; try reflexivity; try lia.
Qed.

(** The string [toDocId] lowercases is made of ASCII letters, digits and
    hyphens, and comes out as lowercase letters, digits and hyphens. *)
Lemma slug_chars (s : jsstring) :
  forallb slug_unit (toLowerCase (hyphenate s)) = true.
Proof.
  unfold toLowerCase, hyphenate.
  assert (H := hyphenate_units false s).
  induction H as [|c l Hc _ IH]; cbn [map forallb]; [reflexivity|].
  now rewrite (lower_unit_slug Hc), IH.
Qed.

(** The extension is what follows the last dot. *)
Lemma strip_extension_last_dot (stem ext : jsstring) :
  extension_tail ext = true -> strip_extension (stem ++ dot :: ext) = stem.
Proof.
  intros He. induction stem as [|c r IH]; cbn [app strip_extension].
  - now rewrite N.eqb_refl, He.
  - rewrite IH.
    destruct (N.eqb_spec c dot) as [->|]; cbn [andb]; [|reflexivity].
    replace (extension_tail (r ++ dot :: ext)) with false; [reflexivity|].
    symmetry. unfold extension_tail. destruct (r ++ dot :: ext) eqn:E.
    + reflexivity.
    + rewrite <- E, forallb_app. cbn [forallb].
      rewrite N.eqb_refl, orb_true_r. cbn [negb andb]. apply andb_false_r.
Qed.

(** A name without a dot keeps all of it. *)
Lemma strip_extension_no_dot (s : jsstring) :
  forallb (fun c => negb (N.eqb c dot)) s = true -> strip_extension s = s.
Proof.
  induction s as [|c r IH]; cbn [forallb strip_extension]; [reflexivity|].
  intros H. apply andb_true_iff in H as [Hc Hr].
  destruct (N.eqb c dot); [discriminate|]. cbn [andb]. now rewrite IH.
Qed.

(** A whole run before an alphanumeric unit, or at the end, becomes one
    hyphen. *)
Lemma hyphenate_run (run rest : jsstring) :
  run <> [] ->
  forallb (fun c => negb (is_alnum c)) run = true ->
  hyphenate_from false (run ++ rest) = hyphen :: hyphenate_from true rest.
Proof.
  destruct run as [|c r]; [congruence|intros _].
  cbn [forallb app hyphenate_from]. intros H.
  apply andb_true_iff in H as [Hc Hr].
  destruct (is_alnum c); [discriminate|]. f_equal.
  induction r as [|d r IH]; [reflexivity|].
  cbn [forallb app hyphenate_from] in *.
  apply andb_true_iff in Hr as [Hd Hr].
  destruct (is_alnum d); [discriminate|]. now apply IH.
Qed.

(** C6: the index item id is the file name with its extension stripped,
    every run of non-alphanumeric characters collapsed to one hyphen,
    lowercased and prefixed with "doc-": a name ending in a dot and an
    extension gives the slug of what stands before that dot, a name without a
    dot the slug of all of it; "Report v1.pdf" gives "doc-report-v1", also as
    the [id] of the item [handleUpload] sends to the index. *)
Theorem toDocId_slug :
  toDocId (VStr (js "Report v1.pdf")) = Ok (VStr (js "doc-report-v1"))
  /\ (forall name : jsstring,
         toDocId (VStr name)
         = Ok (VStr (js "doc-" ++ toLowerCase (hyphenate (strip_extension name)))))
  /\ (forall stem ext : jsstring,
         extension_tail ext = true ->
         toDocId (VStr (stem ++ dot :: ext))
         = Ok (VStr (js "doc-" ++ toLowerCase (hyphenate stem))))
  /\ (forall name : jsstring,
         forallb (fun c => negb (N.eqb c dot)) name = true ->
         toDocId (VStr name) = Ok (VStr (js "doc-" ++ toLowerCase (hyphenate name))))
  /\ (forall f : file, index_body report_upload f = Ok report_index_body).
Proof.
  split; [|split; [|split; [|split]]].
  - vm_compute. reflexivity.
  - intros name. cbn [toDocId]. now rewrite docIdOf_spec.
  - intros stem ext He. cbn [toDocId].
    now rewrite docIdOf_spec, strip_extension_last_dot.
  - intros name Hn. cbn [toDocId].
    now rewrite docIdOf_spec, strip_extension_no_dot.
  - intros f. vm_compute. reflexivity.
Qed.

Lemma toDocId_slug_witness :
  toDocId (VStr (js "Annual.Report v1" ++ dot :: js "pdf"))
  = Ok (VStr (js "doc-" ++ toLowerCase (hyphenate (js "Annual.Report v1"))))
  /\ toDocId (VStr (js "READ ME"))
     = Ok (VStr (js "doc-" ++ toLowerCase (hyphenate (js "READ ME")))).
Proof.
  destruct toDocId_slug as (_ & _ & H3 & H4 & _).
  split.
  - exact (H3 (js "Annual.Report v1") (js "pdf") eq_refl).
  - exact (H4 (js "READ ME") eq_refl).
Defined.

(** C10: on every string, [toDocId] returns "doc-" followed by lowercase
    letters, digits and hyphens only; without an argument it returns
    "doc-document". *)
Theorem toDocId_charset :
  (forall s : jsstring,
      exists r : jsstring,
        toDocId (VStr s) = Ok (VStr (js "doc-" ++ r))
        /\ forallb slug_unit r = true)
  /\ toDocId VUndefined = Ok (VStr (js "doc-document")).
Proof.
  split.
  - intros s. exists (toLowerCase (hyphenate (strip_extension s))). split.
    + cbn [toDocId]. now rewrite docIdOf_spec.
    + apply slug_chars.
  - vm_compute. reflexivity.
Qed.

(* ===================================================================== *)
(** ** The response normaliser *)
(* ===================================================================== *)

(** Only [undefined] serialises to nothing. *)
Lemma serialize_defined (gap indent : jsstring) (v : value) :
  v <> VUndefined -> exists p, serialize gap indent v = Some p.
Proof.
  intros H. destruct v as [| |b|n| |s|xs|props]; try congruence;
    try destruct b; cbn [serialize]; eexists; reflexivity.
Qed.

Lemma first_of_filter {A} (p : A -> bool) (l : list A) :
  match filter p l with c :: _ => Some c | [] => None end = find p l.
Proof.
  induction l as [|x l IH]; cbn [filter find]; [reflexivity|].
  now destruct (p x).
Qed.

(** On anything but [null] and [undefined], the candidate array is the
    truthy part of the probes in their order. *)
Lemma cands_probes (data : value) :
  nullish data = false ->
  cands data = Ok (filter truthy (map (probe data) probe_order)).
Proof.
  intros H. unfold cands, get. rewrite H. cbn [rbind].
  unfold probe_order, top_fields, nested_fields, probe, get_opt.
  cbn [map app fold_left]. now rewrite H.
Qed.

Lemma truthy_not_nullish (v : value) : truthy v = true -> nullish v = false.
Proof. now destruct v. Qed.

(** The function, once past its two guards. *)
Lemma getBestText_with_probes stringify (data : value) :
  truthy data = true -> is_string data = false ->
  getBestText_with stringify data =
  match first_candidate data with
  | Some c => let? s := ToString c in Ok (VStr s)
  | None => rcatch (stringify data) (fun _ => let? s := ToString data in Ok (VStr s))
  end.
Proof.
  intros Ht Hs. unfold getBestText_with. rewrite Ht, Hs. cbn [negb].
  rewrite (cands_probes _ (truthy_not_nullish _ Ht)). cbn [rbind].
  unfold first_candidate. rewrite <- first_of_filter.
  now destruct (filter truthy (map (probe data) probe_order)).
Qed.

Lemma getBestText_probes (data : value) :
  truthy data = true -> is_string data = false ->
  exists pretty,
    serialize (gap_of 2) [] data = Some pretty
    /\ getBestText data =
       match first_candidate data with
       | Some c => let? s := ToString c in Ok (VStr s)
       | None => Ok (VStr pretty)
       end.
Proof.
  intros Ht Hs.
  destruct (serialize_defined (gap_of 2) [] (v := data)) as [p Hp].
  { intros ->. discriminate. }
  exists p. split; [exact Hp|].
  unfold getBestText. rewrite (getBestText_with_probes _ _ Ht Hs).
  unfold JSON_stringify. rewrite Hp. cbn [rcatch].
  now destruct (first_candidate data).
Qed.

(** What [getBestText] returns is a string, on every value of the model. *)
Lemma getBestText_string (v r : value) :
  getBestText v = Ok r -> exists s, r = VStr s.
Proof.
  destruct (truthy v) eqn:Ht.
  - destruct (is_string v) eqn:Hs.
    + destruct v; try discriminate.
      unfold getBestText, getBestText_with. rewrite Ht. cbn [negb is_string].
      intros [= <-]. eexists; reflexivity.
    + destruct (getBestText_probes _ Ht Hs) as [p [_ H]]. rewrite H.
      destruct (first_candidate v) as [c|].
      * destruct (ToString c); cbn [rbind]; intros [= <-]. eexists; reflexivity.
      * intros [= <-]. eexists; reflexivity.
  - unfold getBestText, getBestText_with. rewrite Ht. cbn [negb].
    intros [= <-]. eexists; reflexivity.
Qed.

(** [getBestText] throws only what the conversion of its first candidate
    throws. *)
Lemma getBestText_throws (v : value) (e : exn) :
  getBestText v = Throw e ->
  exists c, first_candidate v = Some c /\ ToString c = Throw e.
Proof.
  destruct (truthy v) eqn:Ht.
  - destruct (is_string v) eqn:Hs.
    + destruct v; try discriminate.
      unfold getBestText, getBestText_with. rewrite Ht. discriminate.
    + destruct (getBestText_probes _ Ht Hs) as [p [_ H]]. rewrite H.
      destruct (first_candidate v) as [c|]; [|discriminate].
      destruct (ToString c) eqn:Hc; cbn [rbind]; [discriminate|].
      intros [= <-]. exists c. now split.
  - unfold getBestText, getBestText_with. rewrite Ht. discriminate.
Qed.



(** C5 fails on the code: [String(cands[0])] at line 25 stands outside the
    [try] of lines 26-30, and on the JSON response
    [{"answer": {"toString": 1}}] the candidate is an object whose own
    [toString] is not a function, so [getBestText] throws a TypeError.  A
    first candidate that cannot be converted is also the only way it throws.
    The rest of the claim holds: [undefined], [null] and the empty string
    give the empty string, a string comes back unchanged, a value without a
    candidate comes back pretty-printed with two spaces of indentation
    (strings escaped, empty containers closed at once), and as
    [String(value)] when the serialiser throws. *)
Theorem getBestText_unprintable_candidate :
  json_safe unprintable_answer = true
  /\ getBestText unprintable_answer = Throw not_primitive
  /\ (forall v e,
         getBestText v = Throw e ->
         exists c, first_candidate v = Some c /\ ToString c = Throw e)
  /\ getBestText VUndefined = Ok (VStr [])
  /\ getBestText VNull = Ok (VStr [])
  /\ getBestText (VStr []) = Ok (VStr [])
  /\ (forall s, getBestText (VStr s) = Ok (VStr s))
  /\ getBestText (VObj []) = Ok (VStr (js "{}"))
  /\ getBestText cited
     = Ok (VStr (text_lines [js "{";
                             js "  " ++ quoted "citations" ++ js ": [";
                             js "    7,";
                             js "    " ++ quoted "p. 2";
                             js "  ],";
                             js "  " ++ quoted "done" ++ js ": true";
                             js "}"]))
  /\ getBestText annotated
     = Ok (VStr (text_lines
                   [js "{";
                    js "  " ++ quoted "note" ++ js ": "
                      ++ [34; 115; 97; 121; 32; 92; 34; 104; 105; 92; 34; 92; 110; 34]%N
                      ++ js ",";
                    js "  " ++ quoted "none" ++ js ": null,";
                    js "  " ++ quoted "empty" ++ js ": {},";
                    js "  " ++ quoted "list" ++ js ": []";
                    js "}"]))
  /\ getBestText_with failing_stringify cited = Ok (VStr (js "[object Object]")).
Proof.
  split; [reflexivity|]. split; [vm_compute; reflexivity|].
  split; [exact getBestText_throws|].
  do 3 (split; [reflexivity|]).
  split; [intros [|c s]; reflexivity|].
  repeat split; vm_compute; reflexivity.
Qed.

Lemma getBestText_unprintable_candidate_witness :
  exists c, first_candidate unprintable_answer = Some c
            /\ ToString c = Throw not_primitive.
Proof.
  destruct getBestText_unprintable_candidate as (_ & _ & H & _).
  exact (H unprintable_answer not_primitive eq_refl).
Defined.

(* ===================================================================== *)
(** ** Falsy values *)
(* ===================================================================== *)

Lemma field_name_inj (f g : field) : field_name f = field_name g -> f = g.
Proof.
  destruct f, g; intros H; try reflexivity; vm_compute in H; discriminate.
Qed.

Lemma lookup_remove_same k props : lookup k (remove_prop k props) = None.
Proof.
  unfold remove_prop. induction props as [|[k' v] r IH]; cbn [filter lookup fst].
  - reflexivity.
  - destruct (str_eqb k k') eqn:E; cbn [negb]; [exact IH|].
    cbn [lookup]. now rewrite E.
Qed.

Lemma lookup_remove_other k k' props :
  k <> k' -> lookup k' (remove_prop k props) = lookup k' props.
Proof.
  intros Hne. unfold remove_prop.
  induction props as [|[k0 v] r IH]; cbn [filter lookup fst]; [reflexivity|].
  destruct (str_eqb k k0) eqn:E; cbn [negb lookup].
  - apply str_eqb_eq in E. subst k0.
    destruct (str_eqb k' k) eqn:E'; [|exact IH].
    apply str_eqb_eq in E'. congruence.
  - now rewrite IH.
Qed.

Lemma lookup_replace_same k v props :
  lookup k (replace_prop k v props) = option_map (fun _ => v) (lookup k props).
Proof.
  unfold replace_prop. induction props as [|[k0 x] r IH]; cbn [map lookup fst].
  - reflexivity.
  - destruct (str_eqb k k0) eqn:E; cbn [lookup]; rewrite E; [reflexivity|exact IH].
Qed.

Lemma lookup_replace_other k k' v props :
  k <> k' -> lookup k' (replace_prop k v props) = lookup k' props.
Proof.
  intros Hne. unfold replace_prop.
  induction props as [|[k0 x] r IH]; cbn [map lookup fst]; [reflexivity|].
  destruct (str_eqb k k0) eqn:E; cbn [lookup]; rewrite IH; [|reflexivity].
  apply str_eqb_eq in E. subst k0.
  destruct (str_eqb k' k) eqn:E'; [|reflexivity].
  apply str_eqb_eq in E'. congruence.
Qed.

Lemma own_remove_same f props :
  own (VObj (remove_prop (field_name f) props)) f = VUndefined.
Proof. cbn [own]. now rewrite lookup_remove_same. Qed.

Lemma own_remove_other f g props :
  f <> g -> own (VObj (remove_prop (field_name f) props)) g = own (VObj props) g.
Proof.
  intros Hne. cbn [own]. rewrite lookup_remove_other; [reflexivity|].
  intros H. now apply field_name_inj in H.
Qed.

Lemma own_replace_same f v x props :
  lookup (field_name f) props = Some x ->
  own (VObj (replace_prop (field_name f) v props)) f = v.
Proof. intros H. cbn [own]. now rewrite lookup_replace_same, H. Qed.

Lemma own_replace_other f g v props :
  f <> g -> own (VObj (replace_prop (field_name f) v props)) g = own (VObj props) g.
Proof.
  intros Hne. cbn [own]. rewrite lookup_replace_other; [reflexivity|].
  intros H. now apply field_name_inj in H.
Qed.

Lemma own_lookup f v props :
  lookup (field_name f) props = Some v -> own (VObj props) f = v.
Proof. intros H. cbn [own]. now rewrite H. Qed.

(** The candidate array, spelled out on an object. *)
Lemma cands_object props :
  cands (VObj props) =
  Ok (filter truthy
        [ own (VObj props) f_answer; own (VObj props) f_output;
          own (VObj props) f_message; own (VObj props) f_text;
          own (VObj props) f_result;
          get_opt (own (VObj props) f_data) f_answer;
          get_opt (own (VObj props) f_data) f_output;
          get_opt (own (VObj props) f_data) f_message ]).
Proof. reflexivity. Qed.

Lemma get_opt_object props f : get_opt (VObj props) f = own (VObj props) f.
Proof. reflexivity. Qed.

(** A falsy top-level candidate counts for nothing. *)
Lemma cands_skip_top props f v :
  In f top_fields -> truthy v = false ->
  lookup (field_name f) props = Some v ->
  cands (VObj props) = cands (VObj (remove_prop (field_name f) props)).
Proof.
  intros Hf Hv Hl. rewrite !cands_object. apply own_lookup in Hl.
  cbn [In top_fields] in Hf.
  destruct Hf as [<-|[<-|[<-|[<-|[<-|[]]]]]];
    rewrite own_remove_same, Hl, !own_remove_other by discriminate;
    cbn [filter]; rewrite Hv; reflexivity.
Qed.

(** A falsy candidate under [data] counts for nothing either. *)
Lemma cands_skip_nested props inner f v :
  In f nested_fields -> truthy v = false ->
  lookup (field_name f_data) props = Some (VObj inner) ->
  lookup (field_name f) inner = Some v ->
  cands (VObj props)
  = cands (VObj (replace_prop (field_name f_data)
                   (VObj (remove_prop (field_name f) inner)) props)).
Proof.
  intros Hf Hv Hd Hl. rewrite !cands_object.
  rewrite (own_replace_same _ _ _ Hd), !own_replace_other by discriminate.
  rewrite (own_lookup _ _ Hd), !get_opt_object. apply own_lookup in Hl.
  cbn [In nested_fields] in Hf.
  destruct Hf as [<-|[<-|[<-|[]]]];
    rewrite own_remove_same, Hl, !own_remove_other by discriminate;
    cbn [filter]; rewrite Hv; reflexivity.
Qed.

(** C9: the number 0 and the boolean [false] at top level give the empty
    string, not their JSON rendering "0" or "false"; and a candidate field
    holding 0 or [false] is passed over exactly as if the object did not
    have it. *)
Theorem getBestText_falsy :
  getBestText (VNum 0) = Ok (VStr [])
  /\ JSON_stringify (VNum 0) 2 = Ok (VStr (js "0"))
  /\ getBestText (VBool false) = Ok (VStr [])
  /\ JSON_stringify (VBool false) 2 = Ok (VStr (js "false"))
  /\ (forall props f v,
         In f top_fields -> v = VNum 0 \/ v = VBool false ->
         lookup (field_name f) props = Some v ->
         cands (VObj props) = cands (VObj (remove_prop (field_name f) props)))
  /\ (forall props inner f v,
         In f nested_fields -> v = VNum 0 \/ v = VBool false ->
         lookup (field_name f_data) props = Some (VObj inner) ->
         lookup (field_name f) inner = Some v ->
         cands (VObj props)
         = cands (VObj (replace_prop (field_name f_data)
                          (VObj (remove_prop (field_name f) inner)) props)))
  /\ getBestText (VObj [(js "answer", VNum 0); (js "output", VStr (js "b"))])
     = Ok (VStr (js "b")).
Proof.
  repeat split; try reflexivity.
  - intros props f v Hf [-> | ->]; now apply cands_skip_top.
  - intros props inner f v Hf [-> | ->]; now apply cands_skip_nested.
Qed.

Lemma getBestText_falsy_witness :
  cands (VObj [(js "answer", VBool false); (js "text", VStr (js "t"))])
  = cands (VObj [(js "text", VStr (js "t"))])
  /\ cands (VObj [(js "data", VObj [(js "answer", VNum 0)]); (js "text", VStr (js "t"))])
     = cands (VObj [(js "data", VObj []); (js "text", VStr (js "t"))]).
Proof.
  destruct getBestText_falsy as (_ & _ & _ & _ & H5 & H6 & _).
  split.
  - exact (H5 [(js "answer", VBool false); (js "text", VStr (js "t"))]
              f_answer (VBool false) (or_introl eq_refl) (or_intror eq_refl) eq_refl).
  - exact (H6 [(js "data", VObj [(js "answer", VNum 0)]); (js "text", VStr (js "t"))]
              [(js "answer", VNum 0)] f_answer (VNum 0)
              (or_introl eq_refl) (or_introl eq_refl) eq_refl eq_refl).
Defined.

(* ===================================================================== *)
(** ** The workflows *)
(* ===================================================================== *)

Lemma own_string_not_nullish (data : value) (f : field) (t : jsstring) :
  own data f = VStr t -> nullish data = false.
Proof. destruct data; cbn; congruence. Qed.

Lemma non_blank_truthy (t : jsstring) :
  whitespace_only t = false -> js_or (VStr t) (VStr []) = VStr t.
Proof. destruct t; [discriminate | reflexivity]. Qed.

(** Integers up to 2^53 are Numbers, and sums that stay there are exact. *)
Lemma round_double_safe (z : Z) : safe_integer z = true -> round_double z = z.
Proof.
  unfold safe_integer. intros H. apply Z.leb_le in H.
  destruct (Z.eq_dec (Z.abs z) (2 ^ 53)) as [E|E].
  - destruct (Z.abs_eq_or_opp z) as [Hz|Hz]; rewrite Hz in E.
    + subst z. vm_compute. reflexivity.
    + assert (z = - 2 ^ 53)%Z as -> by lia. vm_compute. reflexivity.
  - unfold round_double.
    assert (Hlog : (Z.log2 (Z.abs z) - 52 <= 0)%Z).
    { destruct (Z.eq_dec (Z.abs z) 0) as [Z0|Z0].
      - rewrite Z0. cbn. lia.
      - assert (Z.log2 (Z.abs z) < 53)%Z; [|lia].
        apply Z.log2_lt_pow2; lia. }
    apply Z.leb_le in Hlog. cbv zeta. now rewrite Hlog.
Qed.

Lemma safe_integer_finite (z : Z) : safe_integer z = true -> is_infinite z = false.
Proof.
  intros H. unfold is_infinite. rewrite (round_double_safe _ H).
  unfold safe_integer in H. apply Z.leb_le in H. apply Z.leb_gt.
  apply Z.le_lt_trans with (1 := H). apply Z.pow_lt_mono_r; lia.
Qed.

Lemma num_add_safe (x y : Z) :
  safe_integer x = true -> safe_integer y = true ->
  safe_integer (x + y) = true ->
  num_add x y = VNum (x + y).
Proof.
  intros Hx Hy Hs. unfold num_add.
  rewrite (safe_integer_finite _ Hx), (safe_integer_finite _ Hy).
  now rewrite (round_double_safe _ Hx), (round_double_safe _ Hy),
    (round_double_safe _ Hs).
Qed.

Lemma js_add_numbers (x y : Z) : js_add (VNum x) (VNum y) = Ok (num_add x y).
Proof. reflexivity. Qed.

(** The batch of lines 81-89 always has one item. *)
Lemma index_body_length (data : value) (f : file) (body : value) :
  index_body data f = Ok body -> items_length body = VNum 1.
Proof.
  unfold index_body.
  destruct (get data f_filename) as [fn|]; cbn [rbind]; [|discriminate].
  destruct (toDocId _) as [id|]; cbn [rbind]; [|discriminate].
  destruct (get data f_text) as [tx|]; cbn [rbind]; [|discriminate].
  intros H. injection H as <-. reflexivity.
Qed.

Section Workflows.

Variable API_BASE : jsstring.
Variable net : request -> result response.

Ltac run :=
  unfold finally, try_catch, bind, fetch, lift, ret, throw, update,
    setUploading, setExtracted, setIndexedCount, setLastFilename,
    setAnswer, setLoadingAsk, setRaw, json_request, JSON_stringify;
  cbn [ui sent selectedFile uploading extracted indexedCount autoIndex
       lastFilename mode question answer loadingAsk raw renderError
       fst snd negb rbind].

(** C8: with an empty or whitespace-only question [handleAsk] returns at
    once: no request is issued and no state cell changes, so the previous
    answer and raw response stay. *)
Theorem handleAsk_blank_noop (w : world) :
  whitespace_only (question (ui w)) = true ->
  handleAsk API_BASE net w = (Ok tt, w).
Proof.
  intros H. unfold handleAsk. now rewrite truthy_trim, H.
Qed.

(** C7: after a successful extraction, with auto-index off, or with an
    extracted text that is empty or whitespace-only, the upload request is
    the only request issued and the indexed count keeps its value. *)
Theorem handleUpload_without_index (w : world) (f : file) (r : response)
        (data : value) :
  selectedFile (ui w) = Some f ->
  net (upload_request API_BASE f) = Ok r ->
  resp_ok r = true ->
  resp_json r = Ok data ->
  autoIndex (ui w) = false
  \/ (exists t, js_or (own data f_text) (VStr []) = VStr t
                /\ whitespace_only t = true) ->
  let w' := snd (handleUpload API_BASE net w) in
  sent w' = sent w ++ [upload_request API_BASE f]
  /\ indexedCount (ui w') = indexedCount (ui w).
Proof.
  intros Hsel Hnet Hok Hjson Hcase.
  unfold handleUpload. rewrite Hsel. unfold upload_try. run.
  rewrite Hnet. run. rewrite Hok. run. rewrite Hjson. run.
  unfold get. destruct (nullish data); run; [split; reflexivity|].
  destruct Hcase as [Hauto | [t [Ht Hws]]].
  - rewrite Hauto. run. split; reflexivity.
  - destruct (autoIndex (ui w)); run; [|split; reflexivity].
    rewrite Ht. cbn [call_trim]. run. rewrite truthy_trim, Hws. run.
    split; reflexivity.
Qed.

Ltac to_index_call H :=
  destruct H as [Hsel Hauto [r [Hnet [Hok Hjson]]] Htext Hnb Hbody];
  unfold handleUpload; rewrite Hsel, Hauto; unfold upload_try; run;
  rewrite Hnet; run; rewrite Hok; run; rewrite Hjson; run;
  unfold get; rewrite (own_string_not_nullish _ _ Htext); run;
  rewrite Htext, (non_blank_truthy _ Hnb); cbn [call_trim]; run;
  rewrite truthy_trim, Hnb; run; rewrite Hbody; run;
  change {| req_url := API_BASE ++ js "/index"; req_method := POST;
            req_headers := json_headers;
            req_body := TextBody (match serialize (gap_of 0) [] ?b with
                                  | Some s => VStr s
                                  | None => VUndefined
                                  end) |}
    with (posted API_BASE (js "/index") b).

(** C3, as the code has it: when the indexing call fails after a
    successful extraction, the error message, behind the warning marker,
    takes the place of the extracted text in the [extracted] cell; the
    indexed count keeps its value, the file name stays recorded and the
    busy flag is cleared. *)
Theorem handleUpload_index_failure (w : world) (f : file) (data body : value)
        (t : jsstring) (e : exn) :
  extracted_for_index API_BASE net w f data body t ->
  index_fails (net (posted API_BASE (js "/index") body)) e ->
  let w' := snd (handleUpload API_BASE net w) in
  extracted (ui w') = VStr (warning_marker ++ exn_message e)
  /\ indexedCount (ui w') = indexedCount (ui w)
  /\ lastFilename (ui w') = js_or (own data f_filename) (VStr (file_name f))
  /\ uploading (ui w') = false
  /\ sent w' = sent w ++ [upload_request API_BASE f;
                          posted API_BASE (js "/index") body].
Proof.
  intros H Hfail. to_index_call H.
  rewrite <- app_assoc. cbn [app].
  inversion Hfail as [e' He | ix Hix He | ix e' Hix Hj He]; subst; run.
  - repeat split; reflexivity.
  - rewrite Hix. run. repeat split; reflexivity.
  - rewrite Hix. run. rewrite Hj. run. repeat split; reflexivity.
Qed.

(** C4, as the code has it: the updater of line 97 runs when React
    renders, on the body [j] of a successful indexing call.  On a [null]
    body it throws, outside the [try] of the handler: the counter keeps its
    value and the component fails to render.  Otherwise the counter becomes
    [c + (j.upserted || 1)]: it grows by the reported [upserted] when that is
    a non-zero number, and by the batch size 1 when the field is absent or
    is 0, exactly so as long as the counts stay within 2^53. *)
Theorem handleUpload_indexed_count (w : world) (f : file) (data body : value)
        (t : jsstring) (ix : response) (j : value) :
  extracted_for_index API_BASE net w f data body t ->
  net (posted API_BASE (js "/index") body) = Ok ix ->
  resp_ok ix = true ->
  resp_json ix = Ok j ->
  let w' := snd (handleUpload API_BASE net w) in
  (j = VNull ->
   indexedCount (ui w') = indexedCount (ui w)
   /\ renderError (ui w')
      = Some (TypeError (js "Cannot read properties of null (reading 'upserted')")))
  /\ (forall n u,
         nullish j = false ->
         indexedCount (ui w) = VNum n ->
         own j f_upserted = VNum u -> u <> 0%Z ->
         safe_integer n = true -> safe_integer u = true ->
         safe_integer (n + u) = true ->
         indexedCount (ui w') = VNum (n + u)
         /\ renderError (ui w') = renderError (ui w))
  /\ (forall n,
         nullish j = false ->
         indexedCount (ui w) = VNum n ->
         own j f_upserted = VUndefined \/ own j f_upserted = VNum 0 ->
         safe_integer n = true -> safe_integer (n + 1) = true ->
         indexedCount (ui w') = VNum (n + 1)
         /\ renderError (ui w') = renderError (ui w))
  /\ (forall c,
         nullish j = false ->
         js_add (indexedCount (ui w)) (js_or (own j f_upserted) (VNum 1)) = Ok c ->
         indexedCount (ui w') = c
         /\ renderError (ui w') = renderError (ui w))
  /\ (forall e,
         nullish j = false ->
         js_add (indexedCount (ui w)) (js_or (own j f_upserted) (VNum 1)) = Throw e ->
         indexedCount (ui w') = indexedCount (ui w)
         /\ renderError (ui w') = Some e).
Proof.
  intros H Hix Hok' Hj. to_index_call H.
  rewrite Hix. run. rewrite Hok'. run. rewrite Hj. run.
  rewrite (index_body_length _ _ Hbody).
  split; [|split; [|split; [|split]]].
  - intros ->. cbn. split; reflexivity.
  - intros n u Hnn Hc Hu Hne Sn Su Ss. rewrite Hnn, Hc, Hu. cbn [rbind].
    assert (E : js_or (VNum u) (VNum 1) = VNum u).
    { unfold js_or. cbn [truthy]. now destruct (Z.eqb_spec u 0). }
    rewrite E, js_add_numbers.
    rewrite (num_add_safe _ _ Sn Su Ss). split; reflexivity.
  - intros n Hnn Hc Hu S1 S2. rewrite Hnn, Hc. cbn [rbind].
    assert (E : js_or (own j f_upserted) (VNum 1) = VNum 1)
      by (destruct Hu as [-> | ->]; reflexivity).
    rewrite E, js_add_numbers, (num_add_safe n 1 S1 eq_refl S2).
    split; reflexivity.
  - intros c Hnn Hc. rewrite Hnn. cbn [rbind]. rewrite Hc. split; reflexivity.
  - intros e Hnn Hc. rewrite Hnn. cbn [rbind]. rewrite Hc. split; reflexivity.
Qed.

End Workflows.

(* ===================================================================== *)
(** ** Concrete runs *)
(* ===================================================================== *)

(** C3 as stated fails: the index call answers 500 after "hello" was
    extracted, and the [extracted] cell ends up holding the error, not
    "hello". *)
Lemma handleUpload_index_failure_hides_text :
  let w' := snd (handleUpload local_base (service server_error) (ready true pipeline [])) in
  extracted (ui w') = VStr (warning_marker ++ js "Index failed: 500")
  /\ extracted (ui w') <> VStr (js "hello").
Proof. split; vm_compute; [reflexivity | discriminate]. Qed.

Lemma handleUpload_index_failure_witness :
  let w' := snd (handleUpload local_base (service server_error) (ready true pipeline [])) in
  extracted (ui w') = VStr (warning_marker ++ js "Index failed: 500")
  /\ indexedCount (ui w') = VNum 0
  /\ lastFilename (ui w') = VStr (js "Report v1.pdf")
  /\ uploading (ui w') = false
  /\ sent w' = [upload_request local_base report_file;
                posted local_base (js "/index") report_index_body].
Proof.
  assert (E : extracted_for_index local_base (service server_error)
                (ready true pipeline []) report_file report_upload
                report_index_body (js "hello")).
  { constructor; try reflexivity.
    exists (json_response 200 report_upload). repeat split; reflexivity. }
  exact (handleUpload_index_failure E (fails_status server_error eq_refl)).
Defined.

(** C4 as stated fails: the index call reports [upserted: 0] and the counter
    still goes from 0 to 1. *)
Lemma handleUpload_upserted_zero_counts_one :
  let reply := json_response 200 (VObj [(js "upserted", VNum 0)]) in
  let w' := snd (handleUpload local_base (service reply) (ready true pipeline [])) in
  indexedCount (ui w') = VNum 1
  /\ indexedCount (ui w') <> VNum (0 + 0).
Proof. split; vm_compute; [reflexivity | discriminate]. Qed.

Lemma handleUpload_indexed_count_witness :
  let reply := json_response 200 (VObj [(js "upserted", VNum 3)]) in
  let w' := snd (handleUpload local_base (service reply) (ready true pipeline [])) in
  indexedCount (ui w') = VNum 3 /\ renderError (ui w') = None.
Proof.
  assert (E : extracted_for_index local_base
                (service (json_response 200 (VObj [(js "upserted", VNum 3)])))
                (ready true pipeline []) report_file report_upload
                report_index_body (js "hello")).
  { constructor; try reflexivity.
    exists (json_response 200 report_upload). repeat split; reflexivity. }
  destruct (handleUpload_indexed_count E
              (ix := json_response 200 (VObj [(js "upserted", VNum 3)]))
              (j := VObj [(js "upserted", VNum 3)])
              eq_refl eq_refl eq_refl) as (_ & H & _).
  exact (H 0%Z 3%Z eq_refl eq_refl eq_refl ltac:(discriminate)
           eq_refl eq_refl eq_refl).
Defined.

Lemma handleUpload_without_index_witness :
  let w' := snd (handleUpload local_base (service server_error) (ready false pipeline [])) in
  sent w' = [upload_request local_base report_file]
  /\ indexedCount (ui w') = VNum 0.
Proof.
  exact (handleUpload_without_index local_base (service server_error)
           (ready false pipeline []) (r := json_response 200 report_upload)
           eq_refl eq_refl eq_refl eq_refl (or_introl eq_refl)).
Defined.

Lemma handleAsk_blank_noop_witness :
  handleAsk local_base (service server_error) (ready true chat (js "   "))
  = (Ok tt, ready true chat (js "   ")).
Proof.
  exact (handleAsk_blank_noop local_base (service server_error)
           (ready true chat (js "   ")) eq_refl).
Defined.

(* ===================================================================== *)
(** ** Non-success statuses *)
(* ===================================================================== *)

(** The gateway wrappers of api.js fail on a non-success status, with the
    response body as the message. *)
Lemma checked_non_success (res : response) (w : world) :
  resp_ok res = false ->
  Api.checked res w = (Throw (Error (resp_text res)), w).
Proof. intros H. unfold Api.checked. now rewrite H. Qed.

(** [handleAsk] never looks at the status: the same body under another
    status gives the same run. *)
Lemma handleAsk_status_blind (base : jsstring) (r : response) (st : Z) (w : world) :
  handleAsk base (fun _ => Ok (with_status st r)) w
  = handleAsk base (fun _ => Ok r) w.
Proof.
  unfold handleAsk, ask_try.
  destruct (negb _); [reflexivity|].
  destruct (mode (ui w)); reflexivity.
Qed.

(** C2 at a failing input: the service answers [/ask] and [/chat] with
    status 500 and a JSON body.  [handleAsk] does not fail: it stores the body
    as the raw response and shows its rendering as the answer, in both modes.
    [handleUpload], on the same status, fails with the status code in the
    message and not the body; the wrapper [ask] of api.js fails with the
    body. *)
Theorem handleAsk_error_status_unchecked :
  (forall m : ask_mode,
      let w' := snd (handleAsk local_base (service server_error)
                       (ready true m (js "When does it take effect?"))) in
      raw (ui w') = VObj [(js "detail", VStr (js "Internal Server Error"))]
      /\ Ok (answer (ui w'))
         = getBestText (VObj [(js "detail", VStr (js "Internal Server Error"))])
      /\ answer (ui w') <> VStr (warning_marker ++ resp_text server_error)
      /\ List.length (sent w') = 1)
  /\ (let w' := snd (handleUpload local_base (fun _ => Ok server_error)
                       (ready true pipeline [])) in
      extracted (ui w') = VStr (warning_marker ++ js "Upload failed: 500")
      /\ extracted (ui w') <> VStr (warning_marker ++ resp_text server_error))
  /\ fst (Api.ask local_base (fun _ => Ok server_error)
            (VStr (js "When does it take effect?")) (ready true pipeline []))
     = Throw (Error (resp_text server_error)).
Proof.
  split; [|split].
  - intros [|]; vm_compute; repeat split; discriminate.
  - vm_compute. split; [reflexivity|discriminate].
  - vm_compute. reflexivity.
Qed.

(* ===================================================================== *)
(** ** More on the response normaliser *)
(* ===================================================================== *)

Lemma getBestText_on_string (s : jsstring) : getBestText (VStr s) = Ok (VStr s).
Proof. destruct s; reflexivity. Qed.

(** X1: normalising an already normalised answer changes nothing: feeding
    the result of [getBestText] back into it gives the same result. *)
Theorem getBestText_idempotent (v : value) :
  rbind (getBestText v) getBestText = getBestText v.
Proof.
  destruct (getBestText v) as [r|e] eqn:H; [|reflexivity].
  destruct (getBestText_string _ H) as [s ->]. cbn [rbind].
  apply getBestText_on_string.
Qed.

(** X2: fields are probed on objects only: a truthy number, [true] or an
    array (whatever it holds) comes back as its pretty-printed JSON. *)
Theorem getBestText_non_object (v : value) :
  truthy v = true -> is_string v = false -> is_object v = false ->
  getBestText v = JSON_stringify v 2.
Proof.
  intros Ht Hs Ho.
  destruct (getBestText_probes _ Ht Hs) as [p [Hp H]].
  rewrite H. unfold JSON_stringify. rewrite Hp.
  destruct v; try discriminate; reflexivity.
Qed.

Lemma getBestText_non_object_witness :
  getBestText (VArr [VObj [(js "answer", VStr (js "a"))]])
  = JSON_stringify (VArr [VObj [(js "answer", VStr (js "a"))]]) 2.
Proof.
  exact (getBestText_non_object (VArr [VObj [(js "answer", VStr (js "a"))]])
           eq_refl eq_refl eq_refl).
Defined.

(** X3: a candidate is taken as soon as it is truthy, string or not: an
    [answer] that is an object is shown as "[object Object]", unless it has
    a property of its own called [toString], in which case the conversion
    throws; an [answer] that is an empty array gives the empty string.  The
    other fields do not matter. *)
Theorem getBestText_structured_answer (props : list (jsstring * value)) :
  (forall o, lookup (js "answer") props = Some (VObj o) ->
             getBestText (VObj props) =
             match lookup (js "toString") o with
             | None => Ok (VStr (js "[object Object]"))
             | Some _ => Throw not_primitive
             end)
  /\ (lookup (js "answer") props = Some (VArr []) ->
      getBestText (VObj props) = Ok (VStr [])).
Proof.
  split.
  - intros o H. unfold getBestText, getBestText_with. cbn [truthy negb is_string].
    rewrite cands_object. rewrite (own_lookup f_answer props H).
    cbn [filter truthy rbind ToString].
    now destruct (lookup (js "toString") o).
  - intros H. unfold getBestText, getBestText_with. cbn [truthy negb is_string].
    rewrite cands_object. rewrite (own_lookup f_answer props H).
    reflexivity.
Qed.

Lemma getBestText_structured_answer_witness :
  getBestText (VObj [(js "answer", VObj [(js "text", VStr (js "t"))]);
                     (js "output", VStr (js "b"))])
  = Ok (VStr (js "[object Object]"))
  /\ getBestText (VObj [(js "answer", own_toString); (js "output", VStr (js "b"))])
     = Throw not_primitive
  /\ getBestText (VObj [(js "answer", VArr []); (js "output", VStr (js "b"))])
     = Ok (VStr []).
Proof.
  split; [|split].
  - exact (proj1 (getBestText_structured_answer
                    [(js "answer", VObj [(js "text", VStr (js "t"))]);
                     (js "output", VStr (js "b"))])
             [(js "text", VStr (js "t"))] eq_refl).
  - exact (proj1 (getBestText_structured_answer
                    [(js "answer", own_toString); (js "output", VStr (js "b"))])
             [(js "toString", VNum 1)] eq_refl).
  - exact (proj2 (getBestText_structured_answer
                    [(js "answer", VArr []); (js "output", VStr (js "b"))])
             eq_refl).
Defined.

(* ===================================================================== *)
(** ** More on document ids *)
(* ===================================================================== *)

Ltac by_ranges :=
  unfold lower_unit, is_alnum, is_upper, is_lower, is_digit, in_range,
    hyphen, dot, slash;
  repeat match goal with
         | |- context [N.leb ?a ?b] => destruct (N.leb_spec a b)
         | |- context [N.eqb ?a ?b] => destruct (N.eqb_spec a b)
         end; simpl in *; try reflexivity; try lia.

Lemma lower_unit_dot (c : N) : N.eqb (lower_unit c) dot = N.eqb c dot.
Proof. by_ranges; by_ranges. Qed.

Lemma lower_unit_slash (c : N) : N.eqb (lower_unit c) slash = N.eqb c slash.
Proof. by_ranges; by_ranges. Qed.

Lemma lower_unit_hyphen (c : N) : N.eqb (lower_unit c) hyphen = N.eqb c hyphen.
Proof. by_ranges; by_ranges. Qed.

Lemma lower_unit_alnum (c : N) : is_alnum (lower_unit c) = is_alnum c.
Proof. by_ranges; by_ranges. Qed.

Lemma lower_unit_idem (c : N) : lower_unit (lower_unit c) = lower_unit c.
Proof. by_ranges; by_ranges. Qed.

Lemma alnum_not_hyphen (c : N) : is_alnum c = true -> N.eqb c hyphen = false.
Proof. by_ranges; by_ranges; discriminate. Qed.

Lemma not_slash_dot_lower (l : jsstring) :
  forallb (fun c => negb (N.eqb c slash || N.eqb c dot)) (map lower_unit l)
  = forallb (fun c => negb (N.eqb c slash || N.eqb c dot)) l.
Proof.
  induction l as [|d l IH]; cbn [map forallb]; [reflexivity|].
  now rewrite lower_unit_slash, lower_unit_dot, IH.
Qed.

Lemma extension_tail_lower (r : jsstring) :
  extension_tail (map lower_unit r) = extension_tail r.
Proof.
  destruct r as [|c r]; [reflexivity|].
  apply (not_slash_dot_lower (c :: r)).
Qed.

Lemma strip_extension_lower (s : jsstring) :
  strip_extension (map lower_unit s) = map lower_unit (strip_extension s).
Proof.
  induction s as [|c r IH]; cbn [map strip_extension]; [reflexivity|].
  rewrite lower_unit_dot, extension_tail_lower, IH.
  now destruct (N.eqb c dot && extension_tail r).
Qed.

Lemma hyphenate_lower (b : bool) (s : jsstring) :
  map lower_unit (hyphenate_from b (map lower_unit s))
  = map lower_unit (hyphenate_from b s).
Proof.
  revert b. induction s as [|c r IH]; intros b; cbn [map hyphenate_from]; [reflexivity|].
  rewrite lower_unit_alnum.
  destruct (is_alnum c); [|destruct b]; cbn [map]; rewrite ?IH, ?lower_unit_idem;
    reflexivity.
Qed.

Lemma hyphenate_no_double (b : bool) (s : jsstring) :
  no_double_hyphen (hyphenate_from b s) = true
  /\ (b = true -> starts_with_hyphen (hyphenate_from b s) = false).
Proof.
  revert b. induction s as [|c r IH]; intros b; cbn [hyphenate_from].
  - split; reflexivity.
  - destruct (is_alnum c) eqn:E.
    + destruct (IH false) as [H _]. split.
      * cbn [no_double_hyphen]. rewrite H, (alnum_not_hyphen _ E).
        now destruct (hyphenate_from false r).
      * intros _. cbn [starts_with_hyphen]. now apply alnum_not_hyphen.
    + destruct (IH true) as [H1 H2]. destruct b; [split; auto|].
      split; [|discriminate].
      cbn [no_double_hyphen]. rewrite H1.
      specialize (H2 eq_refl). destruct (hyphenate_from true r) as [|d l]; [reflexivity|].
      cbn [starts_with_hyphen] in H2. rewrite H2. now rewrite andb_false_r.
Qed.

Lemma no_double_hyphen_lower (s : jsstring) :
  no_double_hyphen (map lower_unit s) = no_double_hyphen s.
Proof.
  induction s as [|c r IH]; [reflexivity|].
  cbn [map no_double_hyphen]. destruct r as [|d l]; [reflexivity|].
  cbn [map] in *. now rewrite IH, !lower_unit_hyphen.
Qed.

Lemma hyphenate_length (b : bool) (s : jsstring) :
  List.length (hyphenate_from b s) <= List.length s.
Proof.
  revert b. induction s as [|c r IH]; intros b; cbn [hyphenate_from List.length]; [lia|].
  destruct (is_alnum c); [|destruct b]; cbn [List.length];
    try specialize (IH true) as H1; specialize (IH false) as H0; lia.
Qed.

Lemma strip_extension_length (s : jsstring) :
  List.length (strip_extension s) <= List.length s.
Proof.
  induction s as [|c r IH]; cbn [strip_extension List.length]; [lia|].
  destruct (N.eqb c dot && extension_tail r); cbn [List.length]; lia.
Qed.

Lemma hyphenate_keeps_alnum (b : bool) (s : jsstring) :
  filter (fun c => negb (N.eqb c hyphen)) (hyphenate_from b s) = filter is_alnum s.
Proof.
  revert b. induction s as [|c r IH]; intros b; cbn [hyphenate_from filter]; [reflexivity|].
  destruct (is_alnum c) eqn:E.
  - cbn [filter]. now rewrite (alnum_not_hyphen _ E), IH.
  - destruct b; [apply IH|]. cbn [filter]. rewrite N.eqb_refl. apply IH.
Qed.

Lemma filter_hyphen_lower (s : jsstring) :
  filter (fun c => negb (N.eqb c hyphen)) (map lower_unit s)
  = map lower_unit (filter (fun c => negb (N.eqb c hyphen)) s).
Proof.
  induction s as [|c r IH]; cbn [map filter]; [reflexivity|].
  rewrite lower_unit_hyphen, IH. now destruct (N.eqb c hyphen).
Qed.

(** X4: the id does not depend on the extension of the file name, nor on
    the case of its ASCII letters: two names that differ only there get the
    same id. *)
Theorem toDocId_insensitive :
  (forall stem e1 e2 : jsstring,
      extension_tail e1 = true -> extension_tail e2 = true ->
      toDocId (VStr (stem ++ dot :: e1)) = toDocId (VStr (stem ++ dot :: e2)))
  /\ (forall name : jsstring,
         toDocId (VStr (map lower_unit name)) = toDocId (VStr name)).
Proof.
  split.
  - intros stem e1 e2 H1 H2. cbn [toDocId].
    now rewrite !docIdOf_spec, !strip_extension_last_dot.
  - intros name. cbn [toDocId]. rewrite !docIdOf_spec, strip_extension_lower.
    unfold toLowerCase, hyphenate. now rewrite hyphenate_lower.
Qed.

Lemma toDocId_insensitive_witness :
  toDocId (VStr (js "Report v1" ++ dot :: js "pdf"))
  = toDocId (VStr (js "Report v1" ++ dot :: js "docx")).
Proof.
  exact (proj1 toDocId_insensitive (js "Report v1") (js "pdf") (js "docx")
           eq_refl eq_refl).
Defined.

(** X5: the part of the id after "doc-" never has two hyphens in a row, is
    no longer than the file name, and without its hyphens it is exactly the
    letters and digits of the name before its extension, in their order, in
    lower case. *)
Theorem toDocId_slug_shape (name : jsstring) :
  exists slug : jsstring,
    toDocId (VStr name) = Ok (VStr (js "doc-" ++ slug))
    /\ no_double_hyphen slug = true
    /\ List.length slug <= List.length name
    /\ filter (fun c => negb (N.eqb c hyphen)) slug
       = map lower_unit (filter is_alnum (strip_extension name)).
Proof.
  exists (toLowerCase (hyphenate (strip_extension name))).
  split; [|split; [|split]].
  - cbn [toDocId]. now rewrite docIdOf_spec.
  - unfold toLowerCase, hyphenate. rewrite no_double_hyphen_lower.
    apply hyphenate_no_double.
  - unfold toLowerCase, hyphenate. rewrite length_map.
    assert (H1 := hyphenate_length false (strip_extension name)).
    assert (H2 := strip_extension_length name). lia.
  - unfold toLowerCase, hyphenate.
    now rewrite filter_hyphen_lower, hyphenate_keeps_alnum.
Qed.

(* ===================================================================== *)
(** ** The upload workflow on every path *)
(* ===================================================================== *)

Section UploadPaths.

Variable API_BASE : jsstring.
Variable net : request -> result response.

Ltac exec :=
  unfold finally, try_catch, bind, fetch, lift, ret, throw, update,
    setUploading, setExtracted, setIndexedCount, setLastFilename,
    setAnswer, setLoadingAsk, setRaw, json_request, JSON_stringify;
  cbn [ui sent selectedFile uploading extracted indexedCount autoIndex
       lastFilename mode question answer loadingAsk raw renderError
       fst snd negb rbind].

Ltac fold_posted :=
  change {| req_url := API_BASE ++ js "/index"; req_method := POST;
            req_headers := json_headers;
            req_body := TextBody (match serialize (gap_of 0) [] ?b with
                                  | Some s => VStr s
                                  | None => VUndefined
                                  end) |}
    with (posted API_BASE (js "/index") b).

Ltac stop_early :=
  eexists; split; [reflexivity|];
  cbn [ui sent selectedFile uploading extracted indexedCount autoIndex
       lastFilename mode question answer loadingAsk raw renderError];
  repeat (split; [first [reflexivity | assumption]|]); left;
  repeat split; reflexivity.

Ltac stop_late :=
  eexists; split; [reflexivity|];
  cbn [ui sent selectedFile uploading extracted indexedCount autoIndex
       lastFilename mode question answer loadingAsk raw renderError];
  repeat (split; [first [reflexivity | assumption]|]); right;
  split; [eexists; rewrite <- app_assoc; reflexivity|];
  first [left; reflexivity | right; eexists; split; reflexivity].

Lemma handleUpload_paths (w : world) (f : file) :
  selectedFile (ui w) = Some f ->
  exists w' : world,
    handleUpload API_BASE net w = (Ok tt, w')
    /\ selectedFile (ui w') = selectedFile (ui w)
    /\ autoIndex (ui w') = autoIndex (ui w)
    /\ mode (ui w') = mode (ui w)
    /\ question (ui w') = question (ui w)
    /\ loadingAsk (ui w') = loadingAsk (ui w)
    /\ uploading (ui w') = false
    /\ answer (ui w') = VStr []
    /\ raw (ui w') = VNull
    /\ ((sent w' = sent w ++ [upload_request API_BASE f]
         /\ indexedCount (ui w') = indexedCount (ui w)
         /\ renderError (ui w') = renderError (ui w))
        \/ ((exists rq, sent w' = sent w ++ [upload_request API_BASE f; rq])
            /\ (renderError (ui w') = renderError (ui w)
                \/ exists e, renderError (ui w') = Some e
                             /\ indexedCount (ui w') = indexedCount (ui w)))).
Proof.
  intros Hsel. unfold handleUpload. rewrite Hsel. unfold upload_try. exec.
  destruct (net (upload_request API_BASE f)) as [r|e]; exec.
  2: { stop_early. }
  destruct (resp_ok r); exec.
  2: { stop_early. }
  destruct (resp_json r) as [data|e]; exec.
  2: { stop_early. }
  unfold get. destruct (nullish data); exec.
  1: { stop_early. }
  destruct (autoIndex (ui w)); exec; [|stop_early].
  destruct (call_trim _) as [t|e]; exec; [|stop_early].
  destruct (truthy t); exec; [|stop_early].
  destruct (index_body data f) as [body|e]; exec; [|stop_early].
  match goal with |- context [net ?rq] => destruct (net rq) as [ix|e] end;
    exec; [|stop_late].
  destruct (resp_ok ix); exec; [|stop_late].
  destruct (resp_json ix) as [j|e]; exec; [|stop_late].
  match goal with
  | |- context [match ?X with Ok _ => _ | Throw _ => _ end] => destruct X
  end; stop_late.
Qed.


(** X7: when the extraction call fails (the fetch rejects, the status is not
    a success or the body does not parse), no index request is sent, the
    error message behind the warning marker is what the [extracted] cell
    shows, and the indexed count and the last file name keep their values. *)
Theorem handleUpload_upload_failure (w : world) (f : file) (e : exn) :
  selectedFile (ui w) = Some f ->
  upload_fails (net (upload_request API_BASE f)) e ->
  let w' := snd (handleUpload API_BASE net w) in
  extracted (ui w') = VStr (warning_marker ++ exn_message e)
  /\ sent w' = sent w ++ [upload_request API_BASE f]
  /\ indexedCount (ui w') = indexedCount (ui w)
  /\ lastFilename (ui w') = lastFilename (ui w)
  /\ uploading (ui w') = false.
Proof.
  intros Hsel Hfail.
  assert (H : handleUpload API_BASE net w =
              (Ok tt,
               {| ui := {| selectedFile := selectedFile (ui w); uploading := false;
                           extracted := VStr (warning_marker ++ exn_message e);
                           indexedCount := indexedCount (ui w);
                           autoIndex := autoIndex (ui w);
                           lastFilename := lastFilename (ui w);
                           mode := mode (ui w); question := question (ui w);
                           answer := VStr []; loadingAsk := loadingAsk (ui w);
                           raw := VNull; renderError := renderError (ui w) |};
                  sent := sent w ++ [upload_request API_BASE f] |})).
  { unfold handleUpload. rewrite Hsel. unfold upload_try.
    inversion Hfail as [e' He | r Hr He | r e' Hr Hj He]; subst; exec;
      rewrite <- He; exec.
    - now rewrite Hsel.
    - rewrite Hr. exec. now rewrite Hsel.
    - rewrite Hr. exec. rewrite Hj. exec. now rewrite Hsel. }
  rewrite H. repeat split; reflexivity.
Qed.

Lemma index_body_item (data : value) (f : file) (fn : jsstring) :
  nullish data = false ->
  js_or (own data f_filename) (VStr (file_name f)) = VStr fn ->
  index_body data f = Ok (index_item fn (own data f_text)).
Proof.
  intros Hn Hfn. unfold index_body, get. rewrite Hn. cbn [rbind].
  rewrite Hfn. reflexivity.
Qed.

(** The run in which both calls succeed, with its final world. *)
Lemma handleUpload_success_world (w : world) (f : file) (data : value)
      (t fn : jsstring) (ix : response) (j : value) :
  indexed_run API_BASE net w f data t fn ix j ->
  handleUpload API_BASE net w =
  (Ok tt,
   {| ui := {| selectedFile := Some f; uploading := false;
               extracted := VStr t;
               indexedCount := match next_count j (indexedCount (ui w)) with
                               | Ok c => c
                               | Throw _ => indexedCount (ui w)
                               end;
               autoIndex := true; lastFilename := VStr fn;
               mode := mode (ui w); question := question (ui w);
               answer := VStr []; loadingAsk := loadingAsk (ui w);
               raw := VNull;
               renderError := match next_count j (indexedCount (ui w)) with
                              | Ok _ => renderError (ui w)
                              | Throw e => Some e
                              end |};
      sent := sent w ++ [upload_request API_BASE f;
                         posted API_BASE (js "/index") (index_item fn (VStr t))] |}).
Proof.
  intros [Hsel Hauto [r [Hnet [Hok Hjson]]] Htext Hnb Hfn Hix Hok' Hj].
  assert (Hd := own_string_not_nullish _ _ Htext).
  unfold handleUpload. rewrite Hsel, Hauto. unfold upload_try. exec.
  rewrite Hnet. exec. rewrite Hok. exec. rewrite Hjson. exec.
  rewrite (index_body_item _ _ Hd Hfn).
  change (items_length (index_item fn (own data f_text))) with (VNum 1).
  unfold next_count, get. rewrite Hd. exec.
  rewrite Htext, (non_blank_truthy _ Hnb), Hfn. cbn [call_trim]. exec.
  rewrite truthy_trim, Hnb. exec. fold_posted.
  rewrite Hix. exec. rewrite Hok'. exec. rewrite Hj. exec.
  rewrite <- app_assoc, ?Hsel, ?Hauto. cbn [app].
  match goal with
  | |- context [match ?X with Ok _ => _ | Throw _ => _ end] => destruct X
  end; cbn [selectedFile uploading extracted indexedCount autoIndex
            lastFilename mode question answer loadingAsk raw renderError];
    reflexivity.
Qed.

(** X8: when both calls succeed, the upload request is followed by one index
    request whose single item has the id derived from the file name, the
    extracted text and the file name as metadata; the file name is the one
    the service reports, or the name of the selected file when it reports
    none.  The updater of line 97 then runs at render: if it throws, on an
    index reply that is [null] or whose [upserted] cannot be added, the
    component fails to render with that error; if it returns, the count is
    what it returns and the cells show the text and that file name, with the
    busy flag off. *)
Theorem handleUpload_indexes_extracted (w : world) (f : file) (data : value)
        (t fn : jsstring) (ix : response) (j : value) :
  indexed_run API_BASE net w f data t fn ix j ->
  let w' := snd (handleUpload API_BASE net w) in
  sent w' = sent w ++ [upload_request API_BASE f;
                       posted API_BASE (js "/index") (index_item fn (VStr t))]
  /\ match next_count j (indexedCount (ui w)) with
     | Throw e => renderError (ui w') = Some e
     | Ok c =>
         renderError (ui w') = renderError (ui w)
         /\ indexedCount (ui w') = c
         /\ extracted (ui w') = VStr t
         /\ lastFilename (ui w') = VStr fn
         /\ uploading (ui w') = false
     end.
Proof.
  intros H. rewrite (handleUpload_success_world H).
  cbn [snd ui sent renderError indexedCount extracted lastFilename uploading].
  split; [reflexivity|].
  destruct (next_count j (indexedCount (ui w))); repeat split; reflexivity.
Qed.

(** After such a run the same run can be made again. *)
Lemma indexed_run_again (w : world) (f : file) (data : value)
      (t fn : jsstring) (ix : response) (j : value) :
  indexed_run API_BASE net w f data t fn ix j ->
  indexed_run API_BASE net (snd (handleUpload API_BASE net w)) f data t fn ix j.
Proof.
  intros H. rewrite (handleUpload_success_world H).
  destruct H. constructor; assumption || reflexivity.
Qed.

Lemma next_count_numbers (j : value) (n k : Z) :
  nullish j = false ->
  js_or (own j f_upserted) (VNum 1) = VNum k ->
  next_count j (VNum n) = Ok (num_add n k).
Proof.
  intros Hn Hk. unfold next_count, get. rewrite Hn. cbn [rbind].
  now rewrite Hk.
Qed.

(** X9: uploading the same file twice against the same service sends the
    very same index item twice, and counts it twice: as long as the counts
    stay within 2^53, the counter goes up by the increment of one run each
    time, and the component keeps rendering. *)
Theorem handleUpload_twice (w : world) (f : file) (data : value)
        (t fn : jsstring) (ix : response) (j : value) (n k : Z) :
  indexed_run API_BASE net w f data t fn ix j ->
  nullish j = false ->
  indexedCount (ui w) = VNum n ->
  js_or (own j f_upserted) (VNum 1) = VNum k ->
  safe_integer n = true -> safe_integer k = true ->
  safe_integer (n + k) = true -> safe_integer (n + k + k) = true ->
  let w2 := snd (handleUpload API_BASE net (snd (handleUpload API_BASE net w))) in
  sent w2 = sent w ++ [upload_request API_BASE f;
                       posted API_BASE (js "/index") (index_item fn (VStr t));
                       upload_request API_BASE f;
                       posted API_BASE (js "/index") (index_item fn (VStr t))]
  /\ indexedCount (ui w2) = VNum (n + k + k)
  /\ renderError (ui w2) = renderError (ui w).
Proof.
  intros H Hn Hc Hk Sn Sk S1 S2.
  rewrite (handleUpload_success_world (indexed_run_again H)).
  rewrite (handleUpload_success_world H).
  cbn [ui sent indexedCount renderError snd].
  rewrite Hc, (@next_count_numbers j n k Hn Hk), (num_add_safe _ _ Sn Sk S1).
  rewrite (@next_count_numbers j (n + k) k Hn Hk), (num_add_safe _ _ S1 Sk S2).
  rewrite <- app_assoc. repeat split; reflexivity.
Qed.

Lemma js_add_number_string (n : Z) (s : jsstring) :
  js_add (VNum n) (VStr s) = Ok (VStr (num_to_string n ++ s)).
Proof. reflexivity. Qed.

Lemma num_to_string_small (n : Z) :
  (Z.abs n < 2 ^ 53)%Z -> num_to_string n = decimal n.
Proof.
  intros H. assert (S : safe_integer n = true).
  { unfold safe_integer. apply Z.leb_le. lia. }
  unfold num_to_string.
  rewrite (safe_integer_finite _ S), (round_double_safe _ S).
  apply Z.ltb_lt in H. now rewrite H.
Qed.

(** X10: the counter is updated with the binary [+]: when the service
    reports [upserted] as a non-empty string, a numeric counter below 2^53
    turns into the string of its decimal digits followed by that string. *)
Theorem handleUpload_string_upserted (w : world) (f : file) (data : value)
        (t fn : jsstring) (ix : response) (j : value) (n : Z) (s : jsstring) :
  indexed_run API_BASE net w f data t fn ix j ->
  indexedCount (ui w) = VNum n ->
  (Z.abs n < 2 ^ 53)%Z ->
  own j f_upserted = VStr s ->
  s <> [] ->
  let w' := snd (handleUpload API_BASE net w) in
  indexedCount (ui w') = VStr (decimal n ++ s)
  /\ renderError (ui w') = renderError (ui w).
Proof.
  intros H Hc Hb Hu Hs. rewrite (handleUpload_success_world H).
  cbn [ui indexedCount renderError snd]. rewrite Hc.
  assert (E : next_count j (VNum n) = Ok (VStr (decimal n ++ s))).
  { unfold next_count, get.
    assert (Hn : nullish j = false) by (destruct j; try reflexivity; discriminate Hu).
    rewrite Hn, Hu. cbn [rbind].
    assert (E : js_or (VStr s) (VNum 1) = VStr s)
      by (destruct s; [congruence | reflexivity]).
    rewrite E, js_add_number_string. now rewrite (num_to_string_small _ Hb). }
  rewrite E. split; reflexivity.
Qed.

Lemma call_trim_non_string (v : value) :
  truthy v = true -> is_string v = false ->
  exists e, call_trim (js_or v (VStr [])) = Throw e.
Proof.
  intros Ht Hs. unfold js_or. rewrite Ht.
  destruct v; try discriminate; eexists; reflexivity.
Qed.

Lemma toDocId_non_string (v d : value) :
  truthy v = true -> is_string v = false ->
  exists e, toDocId (js_or v d) = Throw e.
Proof.
  intros Ht Hs. unfold js_or. rewrite Ht.
  destruct v; try discriminate; eexists; reflexivity.
Qed.

(** X11: a successful response whose body is not the expected object never
    reaches the index.  With auto-index on, if the body is [null], or its
    [text] is a truthy value that is not a string, or its [text] is fine but
    its [filename] is a truthy value that is not a string, then only the
    upload request is sent, the indexed count keeps its value and the
    [extracted] cell shows an error behind the warning marker. *)
Theorem handleUpload_malformed_extraction (w : world) (f : file) (r : response)
        (data : value) :
  selectedFile (ui w) = Some f ->
  autoIndex (ui w) = true ->
  net (upload_request API_BASE f) = Ok r ->
  resp_ok r = true ->
  resp_json r = Ok data ->
  nullish data = true
  \/ (truthy (own data f_text) = true /\ is_string (own data f_text) = false)
  \/ (exists t, own data f_text = VStr t /\ whitespace_only t = false
                /\ truthy (own data f_filename) = true
                /\ is_string (own data f_filename) = false) ->
  exists (w' : world) (msg : jsstring),
    handleUpload API_BASE net w = (Ok tt, w')
    /\ sent w' = sent w ++ [upload_request API_BASE f]
    /\ indexedCount (ui w') = indexedCount (ui w)
    /\ extracted (ui w') = VStr (warning_marker ++ msg).
Proof.
  intros Hsel Hauto Hnet Hok Hjson Hbad.
  unfold handleUpload. rewrite Hsel, Hauto. unfold upload_try. exec.
  rewrite Hnet. exec. rewrite Hok. exec. rewrite Hjson. exec.
  unfold get. destruct (nullish data) eqn:Hn; exec.
  { eexists. eexists. split; [reflexivity|]. repeat split; reflexivity. }
  destruct Hbad as [Hbad | [[Ht Hs] | [t [Htext [Hnb [Ht Hs]]]]]]; [discriminate| |].
  - destruct (@call_trim_non_string (own data f_text) Ht Hs) as [e He]. rewrite He. exec.
    eexists. eexists. split; [reflexivity|]. repeat split; reflexivity.
  - rewrite Htext, (non_blank_truthy _ Hnb). cbn [call_trim]. exec.
    rewrite truthy_trim, Hnb. exec.
    unfold index_body, get. rewrite Hn. cbn [rbind].
    destruct (@toDocId_non_string (own data f_filename) (VStr (file_name f)) Ht Hs) as [e He].
    rewrite He. cbn [rbind]. exec.
    eexists. eexists. split; [reflexivity|]. repeat split; reflexivity.
Qed.

End UploadPaths.

(* ===================================================================== *)
(** ** The ask workflow on every path *)
(* ===================================================================== *)

Section AskPaths.

Variable API_BASE : jsstring.
Variable net : request -> result response.

Ltac exec :=
  unfold finally, try_catch, bind, fetch, lift, ret, throw, update,
    setUploading, setExtracted, setIndexedCount, setLastFilename,
    setAnswer, setLoadingAsk, setRaw, json_request, JSON_stringify;
  cbn [ui sent selectedFile uploading extracted indexedCount autoIndex
       lastFilename mode question answer loadingAsk raw renderError
       fst snd negb rbind].

(** Every run of [handleAsk] on a non-blank question, with its final
    world. *)
Lemma handleAsk_world (w : world) :
  whitespace_only (question (ui w)) = false ->
  handleAsk API_BASE net w =
  (Ok tt,
   {| ui := {| selectedFile := selectedFile (ui w); uploading := uploading (ui w);
               extracted := extracted (ui w); indexedCount := indexedCount (ui w);
               autoIndex := autoIndex (ui w); lastFilename := lastFilename (ui w);
               mode := mode (ui w); question := question (ui w);
               answer := fst (ask_outcome
                                (net (ask_request API_BASE (mode (ui w))
                                        (question (ui w)))));
               loadingAsk := false;
               raw := snd (ask_outcome
                             (net (ask_request API_BASE (mode (ui w))
                                     (question (ui w)))));
               renderError := renderError (ui w) |};
      sent := sent w ++ [ask_request API_BASE (mode (ui w)) (question (ui w))] |}).
Proof.
  intros Hq. unfold handleAsk. rewrite truthy_trim, Hq. cbn [negb].
  unfold ask_try, ask_outcome.
  destruct (mode (ui w)) eqn:Hm; exec; exec;
    change {| req_url := API_BASE ++ ?p; req_method := POST;
              req_headers := json_headers;
              req_body := TextBody (match serialize (gap_of 0) [] ?b with
                                    | Some s => VStr s
                                    | None => VUndefined
                                    end) |}
      with (posted API_BASE p b);
    [change (posted API_BASE (js "/ask") (ask_body (question (ui w))))
       with (ask_request API_BASE pipeline (question (ui w)))
    |change (posted API_BASE (js "/chat") (chat_body (question (ui w))))
       with (ask_request API_BASE chat (question (ui w)))];
    match goal with |- context [net ?rq] => destruct (net rq) as [r|e] end; exec;
    rewrite ?Hm; try reflexivity;
    destruct (resp_json r) as [j|e]; exec; try reflexivity;
    destruct (getBestText j) as [a|e]; exec; reflexivity.
Qed.

Lemma ask_outcome_string (reply : result response) :
  exists s, fst (ask_outcome reply) = VStr s.
Proof.
  unfold ask_outcome. destruct reply as [r|e]; [|eexists; reflexivity].
  destruct (resp_json r) as [j|e]; [|eexists; reflexivity].
  destruct (getBestText j) as [a|e] eqn:Ha; [|eexists; reflexivity].
  destruct (getBestText_string _ Ha) as [s ->]. eexists; reflexivity.
Qed.

(** X12: a non-blank question whose call returns a JSON body is answered,
    whatever the status of the response: the one request goes to [/ask] with
    [{question, extra_inputs: {}}] in pipeline mode and to [/chat] with
    [{message, llm_id}] (an empty [llm_id]) in chat mode, carrying the
    trimmed question; the parsed body is stored as the raw response and the
    busy flag is cleared.
    The answer is the best text of the body, or, when [getBestText] throws
    on it, the message of that error behind the warning marker. *)
Theorem handleAsk_answered (w : world) (r : response) (j : value) :
  let q := VStr (trim (question (ui w))) in
  let rq := match mode (ui w) with
            | pipeline =>
                posted API_BASE (js "/ask")
                  (VObj [(js "question", q); (js "extra_inputs", VObj [])])
            | chat =>
                posted API_BASE (js "/chat")
                  (VObj [(js "message", q); (js "llm_id", VStr [])])
            end in
  whitespace_only (question (ui w)) = false ->
  net rq = Ok r ->
  resp_json r = Ok j ->
  let w' := snd (handleAsk API_BASE net w) in
  raw (ui w') = j
  /\ answer (ui w') = match getBestText j with
                      | Ok a => a
                      | Throw e => VStr (warning_marker ++ exn_message e)
                      end
  /\ loadingAsk (ui w') = false
  /\ sent w' = sent w ++ [rq].
Proof.
  intros q rq Hq Hnet Hj. rewrite (handleAsk_world w Hq).
  cbn [snd ui sent raw answer loadingAsk].
  assert (E : ask_request API_BASE (mode (ui w)) (question (ui w)) = rq)
    by (unfold rq; now destruct (mode (ui w))).
  rewrite E, Hnet. unfold ask_outcome. rewrite Hj.
  destruct (getBestText j); repeat split; reflexivity.
Qed.

(** X13: the mode chosen before a call decides its endpoint: asking under
    one mode and then under another sends the first request to the endpoint of
    the first mode and the second to the endpoint of the second, whatever the
    service answers. *)
Theorem handleAsk_mode_switch (w : world) (m1 m2 : ask_mode) :
  whitespace_only (question (ui w)) = false ->
  let w1 := snd (handleAsk API_BASE net (snd (setMode m1 w))) in
  let w2 := snd (handleAsk API_BASE net (snd (setMode m2 w1))) in
  sent w2 = sent w ++ [ask_request API_BASE m1 (question (ui w));
                       ask_request API_BASE m2 (question (ui w))].
Proof.
  intros Hq.
  rewrite (handleAsk_world (snd (setMode m1 w)) Hq).
  cbn [snd].
  match goal with
  | |- context [handleAsk API_BASE net ?x] =>
      rewrite (handleAsk_world x Hq)
  end.
  cbn. now rewrite <- app_assoc.
Qed.

(** X14: [handleAsk] never rejects and never touches the upload side: the
    selected file, the busy flag of the upload, the extracted text, the
    indexed count, the auto-index toggle and the last file name keep their
    values, as do the mode and the question.  On a non-blank question it sends
    exactly one request, clears its busy flag and leaves a string in the
    answer cell, whatever the service does. *)
Theorem handleAsk_settles (w : world) :
  exists w' : world,
    handleAsk API_BASE net w = (Ok tt, w')
    /\ selectedFile (ui w') = selectedFile (ui w)
    /\ uploading (ui w') = uploading (ui w)
    /\ extracted (ui w') = extracted (ui w)
    /\ indexedCount (ui w') = indexedCount (ui w)
    /\ autoIndex (ui w') = autoIndex (ui w)
    /\ lastFilename (ui w') = lastFilename (ui w)
    /\ mode (ui w') = mode (ui w)
    /\ question (ui w') = question (ui w)
    /\ if whitespace_only (question (ui w)) then w' = w
       else loadingAsk (ui w') = false
            /\ sent w' = sent w ++ [ask_request API_BASE (mode (ui w))
                                      (question (ui w))]
            /\ exists s, answer (ui w') = VStr s.
Proof.
  destruct (whitespace_only (question (ui w))) eqn:Hq.
  - exists w. split; [|repeat split; reflexivity].
    unfold handleAsk. now rewrite truthy_trim, Hq.
  - eexists. split; [apply (handleAsk_world w Hq)|].
    cbn [ui sent selectedFile uploading extracted indexedCount autoIndex
         lastFilename mode question answer loadingAsk].
    repeat (split; [reflexivity|]). apply ask_outcome_string.
Qed.

(** X15: when the call of a non-blank question fails (the fetch rejects or
    the body does not parse), the answer cell shows the error message behind
    the warning marker, the raw response stays cleared and the busy flag is
    cleared. *)
Theorem handleAsk_failure (w : world) (e : exn) :
  whitespace_only (question (ui w)) = false ->
  net (ask_request API_BASE (mode (ui w)) (question (ui w))) = Throw e
  \/ (exists r, net (ask_request API_BASE (mode (ui w)) (question (ui w))) = Ok r
                /\ resp_json r = Throw e) ->
  let w' := snd (handleAsk API_BASE net w) in
  answer (ui w') = VStr (warning_marker ++ exn_message e)
  /\ raw (ui w') = VNull
  /\ loadingAsk (ui w') = false
  /\ sent w' = sent w ++ [ask_request API_BASE (mode (ui w)) (question (ui w))].
Proof.
  intros Hq Hfail. rewrite (handleAsk_world w Hq).
  cbn [snd ui sent raw answer loadingAsk]. unfold ask_outcome.
  destruct Hfail as [Hnet | [r [Hnet Hj]]]; rewrite Hnet; [|rewrite Hj];
    repeat split; reflexivity.
Qed.

End AskPaths.

(* ===================================================================== *)
(** ** What the page shows and lets the user do *)
(* ===================================================================== *)

Section Page.

Variable API_BASE : jsstring.
Variable net : request -> result response.


Lemma serialize_object_non_empty (props : list (jsstring * value)) (p : jsstring) :
  serialize (gap_of 2) [] (VObj props) = Some p -> p <> [].
Proof.
  cbn [serialize]. intros H. injection H as <-.
  destruct (flat_map _ props); discriminate.
Qed.

(** X17: what the two panels show after an answered question.  A falsy
    reply ([null], 0, [false], the empty string) leaves the dash in both the
    answer panel and the debug panel, as if nothing had come back; an object
    without any candidate field shows the same pretty-printed JSON in
    both. *)
Theorem panels_after_answer (w : world) (r : response) (j : value) :
  whitespace_only (question (ui w)) = false ->
  net (ask_request API_BASE (mode (ui w)) (question (ui w))) = Ok r ->
  resp_ok r = true ->
  resp_json r = Ok j ->
  let w' := snd (handleAsk API_BASE net w) in
  (truthy j = false ->
   shown_answer (ui w') = VStr em_dash /\ shown_raw (ui w') = Ok (VStr em_dash))
  /\ (is_object j = true -> first_candidate j = None ->
      Ok (shown_answer (ui w')) = shown_raw (ui w')).
Proof.
  intros Hq Hnet _ Hj. rewrite (handleAsk_world API_BASE net w Hq).
  cbn [snd ui]. unfold shown_answer, shown_raw. cbn [answer raw].
  rewrite Hnet. unfold ask_outcome. rewrite Hj. split.
  - intros Hf. unfold getBestText, getBestText_with. rewrite Hf.
    cbn [negb fst snd]. rewrite Hf. split; reflexivity.
  - intros Ho Hc. destruct j as [| | | | | |xs|props]; try discriminate.
    destruct (getBestText_probes (VObj props) eq_refl eq_refl) as [p [Hp Hg]].
    rewrite Hg, Hc. cbn [fst snd truthy]. unfold JSON_stringify. rewrite Hp.
    unfold js_or. cbn [truthy].
    destruct p; [now apply serialize_object_non_empty in Hp | reflexivity].
Qed.

End Page.

(* ===================================================================== *)
(** ** classNames, the dropzone and the file input *)
(* ===================================================================== *)

Lemma join_app (sep : jsstring) (a b : list jsstring) :
  join sep (a ++ b) =
  match a, b with
  | [], _ => join sep b
  | _, [] => join sep a
  | _, _ => join sep a ++ sep ++ join sep b
  end.
Proof.
  induction a as [|x a IH]; [reflexivity|].
  destruct b as [|y b]; [now rewrite app_nil_r|].
  destruct a as [|x' a].
  - reflexivity.
  - change (join sep ((x :: x' :: a) ++ y :: b))
      with (x ++ sep ++ join sep ((x' :: a) ++ y :: b)).
    rewrite IH.
    change (join sep (x :: x' :: a)) with (x ++ sep ++ join sep (x' :: a)).
    now rewrite <- !app_assoc.
Qed.

Lemma element_strings_app (xs ys : list value) :
  element_strings (xs ++ ys) =
  let? a := element_strings xs in
  let? b := element_strings ys in
  Ok (a ++ b).
Proof.
  induction xs as [|x xs IH]; cbn [app element_strings rbind].
  - now destruct (element_strings ys).
  - destruct (match x with VUndefined | VNull => Ok [] | _ => ToString x end)
      as [s|e]; cbn [rbind]; [|reflexivity].
    rewrite IH. destruct (element_strings xs) as [a|e]; cbn [rbind]; [|reflexivity].
    now destruct (element_strings ys).
Qed.

Lemma element_strings_cons (x : value) (xs : list value) (l : list jsstring) :
  element_strings (x :: xs) = Ok l -> l <> [].
Proof.
  cbn [element_strings].
  destruct (match x with VUndefined | VNull => Ok [] | _ => ToString x end);
    cbn [rbind]; [|discriminate].
  destruct (element_strings xs); cbn [rbind]; [|discriminate].
  intros [= <-]. discriminate.
Qed.

(** The array case of ToString is [join] with a comma. *)
Lemma ToString_array (xs : list value) :
  ToString (VArr xs) = array_join (js ",") xs.
Proof.
  unfold array_join. cbn [ToString].
  match goal with |- rbind ?a _ = rbind ?b _ => assert (E : a = b) end.
  { induction xs as [|x xs IH]; [reflexivity|].
    cbn [element_strings]. now rewrite IH. }
  now rewrite E.
Qed.

(** X18: [classNames] lets a falsy argument contribute nothing, neither a
    name nor a space, wherever it stands; and the names of two groups of
    arguments are those of each group, with one space between them when both
    groups have a name to give. *)
Theorem classNames_composes (xs ys : list value) :
  (forall v, truthy v = false -> classNames (xs ++ v :: ys) = classNames (xs ++ ys))
  /\ classNames (xs ++ ys) =
     match filter truthy xs, filter truthy ys with
     | [], _ => classNames ys
     | _, [] => classNames xs
     | _, _ => let? a := classNames xs in
               let? b := classNames ys in
               Ok (a ++ js " " ++ b)
     end.
Proof.
  split.
  - intros v Hv. unfold classNames. rewrite !filter_app. cbn [filter].
    now rewrite Hv.
  - unfold classNames, array_join. rewrite filter_app.
    destruct (filter truthy xs) as [|x l] eqn:Ex; [reflexivity|].
    destruct (filter truthy ys) as [|y l'] eqn:Ey; [now rewrite app_nil_r|].
    rewrite element_strings_app.
    destruct (element_strings (x :: l)) as [a|e] eqn:Ea; cbn [rbind]; [|reflexivity].
    destruct (element_strings (y :: l')) as [b|e] eqn:Eb; cbn [rbind]; [|reflexivity].
    rewrite join_app.
    apply element_strings_cons in Ea. apply element_strings_cons in Eb.
    destruct a; [congruence|]. destruct b; [congruence|]. reflexivity.
Qed.

Lemma classNames_composes_witness :
  classNames ([VStr (js "px-3")] ++ VBool false :: [VStr (js "bg-white")])
  = classNames ([VStr (js "px-3")] ++ [VStr (js "bg-white")]).
Proof.
  exact (proj1 (classNames_composes [VStr (js "px-3")] [VStr (js "bg-white")])
           (VBool false) eq_refl).
Defined.

Section Selection.

Variable API_BASE : jsstring.
Variable net : request -> result response.

(** X19: dropping files selects the first of them, and the next upload
    sends that file, whatever was selected before; a drop without files keeps
    the selection, whereas the file input without files clears it, after
    which the upload handler does nothing.  A drop always ends the drag
    highlight. *)
Theorem drop_and_pick (p : page) :
  (forall (f : file) (others : list file),
      let p' := handleDrop (Some (f :: others)) p in
      dragOver p' = false
      /\ exists (rest : list request) (w' : world),
           handleUpload API_BASE net (component p') = (Ok tt, w')
           /\ sent w' = sent (component p) ++ upload_request API_BASE f :: rest)
  /\ handleDrop None p = {| dragOver := false; component := component p |}
  /\ handleDrop (Some []) p = {| dragOver := false; component := component p |}
  /\ (forall files : option (list file),
         first_file files = None ->
         let w1 := snd (handleFileChange files (component p)) in
         selectedFile (ui w1) = None
         /\ handleUpload API_BASE net w1 = (Ok tt, w1)).
Proof.
  split; [|split; [|split]]; try reflexivity.
  - intros f others. split; [reflexivity|].
    destruct (handleUpload_paths API_BASE net
                (component (handleDrop (Some (f :: others)) p)) (f := f) eq_refl)
      as (w' & H1 & _ & _ & _ & _ & _ & _ & _ & _ & H10).
    destruct H10 as [[Hs _] | [[rq Hs] _]].
    + exists [], w'. split; assumption.
    + exists [rq], w'. split; assumption.
  - intros files Hf. unfold handleFileChange. rewrite Hf. split; reflexivity.
Qed.

End Selection.

Lemma drop_and_pick_witness :
  let w1 := snd (handleFileChange (Some []) (ready true pipeline [])) in
  selectedFile (ui w1) = None
  /\ handleUpload local_base (service server_error) w1 = (Ok tt, w1).
Proof.
  destruct (drop_and_pick local_base (service server_error)
              {| dragOver := true; component := ready true pipeline [] |})
    as (_ & _ & _ & H).
  exact (H (Some []) eq_refl).
Defined.

(* ===================================================================== *)
(** ** The gateway wrappers *)
(* ===================================================================== *)

Section GatewayFacts.

Variable API_URL : jsstring.
Variable net : request -> result response.

(** What a wrapper returns for a reply of the service. *)
Lemma post_json_run (path : jsstring) (body : value) (w : world) :
  Api.post_json API_URL net path body w =
  (match net (posted API_URL path body) with
   | Throw e => Throw e
   | Ok res => if resp_ok res then resp_json res else Throw (Error (resp_text res))
   end,
   {| ui := ui w; sent := sent w ++ [posted API_URL path body] |}).
Proof.
  unfold Api.post_json, Api.checked, bind, lift, fetch, throw, JSON_stringify.
  change {| req_url := API_URL ++ path; req_method := POST;
            req_headers := json_headers;
            req_body := TextBody (match serialize (gap_of 0) [] body with
                                  | Some s => VStr s
                                  | None => VUndefined
                                  end) |}
    with (posted API_URL path body).
  destruct (net (posted API_URL path body)) as [res|e]; [|reflexivity].
  now destruct (resp_ok res).
Qed.

Lemma uploadFile_run (f : file) (w : world) :
  Api.uploadFile API_URL net f w =
  (match net (upload_request API_URL f) with
   | Throw e => Throw e
   | Ok res => if resp_ok res then resp_json res else Throw (Error (resp_text res))
   end,
   {| ui := ui w; sent := sent w ++ [upload_request API_URL f] |}).
Proof.
  unfold Api.uploadFile, Api.checked, bind, lift, fetch, throw.
  change {| req_url := API_URL ++ js "/upload"; req_method := POST;
            req_headers := []; req_body := FormData [(js "file", f)] |}
    with (upload_request API_URL f).
  destruct (net (upload_request API_URL f)) as [res|e]; [|reflexivity].
  now destruct (resp_ok res).
Qed.

(** X20: the three wrappers of api.js keep the status contract: each sends
    exactly one POST request; on a non-success status it throws an error whose
    message is the response body text, and on a success status it returns what
    the body parses to. *)
Theorem gateway_status_contract (f : file) (items question : value)
        (res : response) (w : world) :
  (net (upload_request API_URL f) = Ok res ->
   Api.uploadFile API_URL net f w =
   (if resp_ok res then resp_json res else Throw (Error (resp_text res)),
    {| ui := ui w; sent := sent w ++ [upload_request API_URL f] |}))
  /\ (net (posted API_URL (js "/index") (VObj [(js "items", items)])) = Ok res ->
      Api.indexItems API_URL net items w =
      (if resp_ok res then resp_json res else Throw (Error (resp_text res)),
       {| ui := ui w;
          sent := sent w ++ [posted API_URL (js "/index")
                               (VObj [(js "items", items)])] |}))
  /\ (net (posted API_URL (js "/ask") (VObj [(js "question", question)])) = Ok res ->
      Api.ask API_URL net question w =
      (if resp_ok res then resp_json res else Throw (Error (resp_text res)),
       {| ui := ui w;
          sent := sent w ++ [posted API_URL (js "/ask")
                               (VObj [(js "question", question)])] |})).
Proof.
  split; [|split]; intros H.
  - now rewrite uploadFile_run, H.
  - unfold Api.indexItems. now rewrite post_json_run, H.
  - unfold Api.ask. now rewrite post_json_run, H.
Qed.

End GatewayFacts.

Lemma gateway_status_contract_witness :
  Api.ask local_base (service server_error) (VStr (js "hi")) (ready true pipeline [])
  = (Throw (Error (resp_text server_error)),
     {| ui := ui (ready true pipeline []);
        sent := [posted local_base (js "/ask")
                   (VObj [(js "question", VStr (js "hi"))])] |}).
Proof.
  destruct (gateway_status_contract local_base (service server_error)
              report_file VNull (VStr (js "hi")) server_error
              (ready true pipeline [])) as (_ & _ & H).
  exact (H eq_refl).
Defined.

(* ===================================================================== *)
(** ** The workflows on the sample service *)
(* ===================================================================== *)

Lemma handleUpload_upload_failure_witness :
  let w' := snd (handleUpload local_base (always server_error) (ready true pipeline [])) in
  extracted (ui w') = VStr (warning_marker ++ js "Upload failed: 500")
  /\ sent w' = [upload_request local_base report_file]
  /\ indexedCount (ui w') = VNum 0
  /\ lastFilename (ui w') = VStr []
  /\ uploading (ui w') = false.
Proof.
  exact (handleUpload_upload_failure local_base (always server_error)
           (ready true pipeline []) (f := report_file) eq_refl
           (upload_fails_status server_error eq_refl)).
Defined.

Lemma sample_run (ix : response) (j : value) :
  resp_ok ix = true -> resp_json ix = Ok j ->
  indexed_run local_base (service ix) (ready true pipeline [])
    report_file report_upload (js "hello") (js "Report v1.pdf") ix j.
Proof.
  intros Hok Hj. constructor; try reflexivity; try assumption.
  exists (json_response 200 report_upload). repeat split; reflexivity.
Defined.


Lemma handleUpload_indexes_extracted_witness :
  (let w' := snd (handleUpload local_base (service upserted_two)
                    (ready true pipeline [])) in
   sent w' = [upload_request local_base report_file;
              posted local_base (js "/index")
                (index_item (js "Report v1.pdf") (VStr (js "hello")))]
   /\ renderError (ui w') = None
   /\ indexedCount (ui w') = VNum 2
   /\ extracted (ui w') = VStr (js "hello")
   /\ lastFilename (ui w') = VStr (js "Report v1.pdf")
   /\ uploading (ui w') = false)
  /\ renderError (ui (snd (handleUpload local_base (service unprintable_upserted)
                             (ready true pipeline []))))
     = Some not_primitive.
Proof.
  split.
  - exact (handleUpload_indexes_extracted
             (sample_run upserted_two (j := VObj [(js "upserted", VNum 2)])
                eq_refl eq_refl)).
  - exact (proj2 (handleUpload_indexes_extracted
                    (sample_run unprintable_upserted
                       (j := VObj [(js "upserted", own_toString)])
                       eq_refl eq_refl))).
Defined.

Lemma handleUpload_twice_witness :
  let w2 := snd (handleUpload local_base (service upserted_two)
                   (snd (handleUpload local_base (service upserted_two)
                           (ready true pipeline [])))) in
  sent w2 = [upload_request local_base report_file;
             posted local_base (js "/index")
               (index_item (js "Report v1.pdf") (VStr (js "hello")));
             upload_request local_base report_file;
             posted local_base (js "/index")
               (index_item (js "Report v1.pdf") (VStr (js "hello")))]
  /\ indexedCount (ui w2) = VNum 4
  /\ renderError (ui w2) = None.
Proof.
  exact (handleUpload_twice (n := 0) (k := 2)
           (sample_run upserted_two (j := VObj [(js "upserted", VNum 2)])
              eq_refl eq_refl)
           eq_refl eq_refl eq_refl eq_refl eq_refl eq_refl eq_refl).
Defined.

Lemma handleUpload_string_upserted_witness :
  let w' := snd (handleUpload local_base (service upserted_text)
                   (ready true pipeline [])) in
  indexedCount (ui w') = VStr (js "03") /\ renderError (ui w') = None.
Proof.
  exact (handleUpload_string_upserted (n := 0) (s := js "3")
           (sample_run upserted_text (j := VObj [(js "upserted", VStr (js "3"))])
              eq_refl eq_refl)
           eq_refl eq_refl eq_refl ltac:(discriminate)).
Defined.

Lemma handleUpload_malformed_extraction_witness :
  exists (w' : world) (msg : jsstring),
    handleUpload local_base
      (always (json_response 200 (VObj [(js "text", VNum 5)])))
      (ready true pipeline []) = (Ok tt, w')
    /\ sent w' = [upload_request local_base report_file]
    /\ indexedCount (ui w') = VNum 0
    /\ extracted (ui w') = VStr (warning_marker ++ msg).
Proof.
  exact (handleUpload_malformed_extraction local_base
           (always (json_response 200 (VObj [(js "text", VNum 5)])))
           (ready true pipeline []) (f := report_file)
           (r := json_response 200 (VObj [(js "text", VNum 5)]))
           (data := VObj [(js "text", VNum 5)])
           eq_refl eq_refl eq_refl eq_refl eq_refl
           (or_intror (or_introl (conj eq_refl eq_refl)))).
Defined.

Lemma handleAsk_answered_witness :
  (let w' := snd (handleAsk local_base (always upserted_two)
                    (ready true chat (js " hi "))) in
   raw (ui w') = VObj [(js "upserted", VNum 2)]
   /\ answer (ui w')
      = VStr (text_lines [js "{"; js "  " ++ quoted "upserted" ++ js ": 2"; js "}"])
   /\ loadingAsk (ui w') = false
   /\ sent w' = [posted local_base (js "/chat")
                   (VObj [(js "message", VStr (js "hi")); (js "llm_id", VStr [])])])
  /\ answer (ui (snd (handleAsk local_base
                        (always (json_response 200 unprintable_answer))
                        (ready true pipeline (js "hi")))))
     = VStr (warning_marker ++ js "Cannot convert object to primitive value").
Proof.
  split.
  - exact (handleAsk_answered local_base (always upserted_two)
             (ready true chat (js " hi ")) (r := upserted_two)
             eq_refl eq_refl eq_refl).
  - exact (proj1 (proj2 (handleAsk_answered local_base
                           (always (json_response 200 unprintable_answer))
                           (ready true pipeline (js "hi"))
                           (r := json_response 200 unprintable_answer)
                           eq_refl eq_refl eq_refl))).
Defined.

Lemma handleAsk_mode_switch_witness :
  let w1 := snd (handleAsk local_base unreachable
                   (snd (setMode pipeline (ready true chat (js "hi"))))) in
  let w2 := snd (handleAsk local_base unreachable (snd (setMode chat w1))) in
  sent w2 = [ask_request local_base pipeline (js "hi");
             ask_request local_base chat (js "hi")].
Proof.
  exact (handleAsk_mode_switch local_base unreachable
           (ready true chat (js "hi")) pipeline chat eq_refl).
Defined.

Lemma handleAsk_failure_witness :
  let w' := snd (handleAsk local_base unreachable (ready true pipeline (js "hi"))) in
  answer (ui w') = VStr (warning_marker ++ js "Failed to fetch")
  /\ raw (ui w') = VNull
  /\ loadingAsk (ui w') = false
  /\ sent w' = [ask_request local_base pipeline (js "hi")].
Proof.
  exact (handleAsk_failure local_base unreachable (ready true pipeline (js "hi"))
           (e := TypeError (js "Failed to fetch")) eq_refl (or_introl eq_refl)).
Defined.


Lemma panels_after_answer_witness :
  let w' := snd (handleAsk local_base (always (json_response 200 VNull))
                   (ready true pipeline (js "hi"))) in
  shown_answer (ui w') = VStr em_dash /\ shown_raw (ui w') = Ok (VStr em_dash).
Proof.
  exact (proj1 (panels_after_answer local_base (always (json_response 200 VNull))
                  (ready true pipeline (js "hi")) (r := json_response 200 VNull)
                  eq_refl eq_refl eq_refl eq_refl) eq_refl).
Defined.

(* ===================================================================== *)
(** ** The standalone components *)
(* ===================================================================== *)

Section Components.

Variable API_URL : jsstring.
Variable net : request -> result response.

Lemma uploadFile_settled (f : file) (w : world) :
  Api.uploadFile API_URL net f w
  = (settled (net (upload_request API_URL f)),
     after_request w (upload_request API_URL f)).
Proof. apply uploadFile_run. Qed.

Lemma post_json_settled (path : jsstring) (body : value) (w : world) :
  Api.post_json API_URL net path body w
  = (settled (net (posted API_URL path body)),
     after_request w (posted API_URL path body)).
Proof. apply post_json_run. Qed.

Ltac cexec :=
  unfold UploadPanel.setStatus, AskForm.setBusy, notify, cfinally,
    cbind, cret, cpure, call, cset;
  cbn [cells reported outside UploadPanel.file_ UploadPanel.status
       AskForm.q AskForm.busy fst snd negb].

(** X21: in the upload panel a failing call is not caught: the handler
    rejects with the error of the gateway, [onIndexed] is not called, and the
    status keeps the text of the step that was in progress, "Extracting
    text..." when the extraction failed (no index request is sent then) and
    "Indexing <filename>..." when the indexing failed.  A reported file name
    that cannot be put into the status text fails the same way: the handler
    rejects with the error of the conversion, before any index request. *)
Theorem panel_failure (uuid : jsstring) (onIndexed : bool)
        (sc : scene UploadPanel.cells_of) (f : file) (e : exn) :
  UploadPanel.file_ (cells sc) = Some f ->
  (settled (net (upload_request API_URL f)) = Throw e ->
   UploadPanel.handleUpload API_URL net uuid onIndexed sc =
   (Throw e,
    {| cells := {| UploadPanel.file_ := Some f;
                   UploadPanel.status := js "Extracting text" ++ ellipsis |};
       reported := reported sc;
       outside := after_request (outside sc) (upload_request API_URL f) |}))
  /\ (forall (up : value) (shown : jsstring),
         settled (net (upload_request API_URL f)) = Ok up ->
         nullish up = false ->
         ToString (own up f_filename) = Ok shown ->
         settled (net (posted API_URL (js "/index")
                         (VObj [(js "items",
                                 UploadPanel.items uuid (own up f_text)
                                   (own up f_filename))])))
         = Throw e ->
         UploadPanel.handleUpload API_URL net uuid onIndexed sc =
         (Throw e,
          {| cells := {| UploadPanel.file_ := Some f;
                         UploadPanel.status := js "Indexing " ++ shown ++ ellipsis |};
             reported := reported sc;
             outside :=
               after_request
                 (after_request (outside sc) (upload_request API_URL f))
                 (posted API_URL (js "/index")
                    (VObj [(js "items",
                            UploadPanel.items uuid (own up f_text)
                              (own up f_filename))])) |}))
  /\ (forall up : value,
         settled (net (upload_request API_URL f)) = Ok up ->
         nullish up = false ->
         ToString (own up f_filename) = Throw e ->
         UploadPanel.handleUpload API_URL net uuid onIndexed sc =
         (Throw e,
          {| cells := {| UploadPanel.file_ := Some f;
                         UploadPanel.status := js "Extracting text" ++ ellipsis |};
             reported := reported sc;
             outside := after_request (outside sc) (upload_request API_URL f) |})).
Proof.
  intros Hf. split; [|split].
  - intros Hup. unfold UploadPanel.handleUpload. rewrite Hf. cexec.
    rewrite uploadFile_settled, Hup, Hf. reflexivity.
  - intros up shown Hup Hn Hs Hix. unfold UploadPanel.handleUpload. rewrite Hf. cexec.
    rewrite uploadFile_settled, Hup. unfold get. rewrite Hn. cexec.
    rewrite Hs. cexec.
    unfold Api.indexItems. rewrite post_json_settled, Hix, Hf. reflexivity.
  - intros up Hup Hn Hs. unfold UploadPanel.handleUpload. rewrite Hf. cexec.
    rewrite uploadFile_settled, Hup. unfold get. rewrite Hn. cexec.
    rewrite Hs, Hf. reflexivity.
Qed.

(** X22: when both calls succeed and the reported file name can be put into
    the status text, the panel sends the upload request and then one index
    request whose item has the random id, the text and [meta.source] set to
    the reported file name; the status ends as "Indexed <filename>" and
    [onIndexed], if given, is called once with the id.  The text is indexed
    as it came, blank or missing included: the panel has no guard on it. *)
Theorem panel_success (uuid : jsstring) (onIndexed : bool)
        (sc : scene UploadPanel.cells_of) (f : file) (up done : value)
        (shown : jsstring) :
  UploadPanel.file_ (cells sc) = Some f ->
  settled (net (upload_request API_URL f)) = Ok up ->
  nullish up = false ->
  ToString (own up f_filename) = Ok shown ->
  settled (net (posted API_URL (js "/index")
                  (VObj [(js "items",
                          UploadPanel.items uuid (own up f_text)
                            (own up f_filename))])))
  = Ok done ->
  UploadPanel.handleUpload API_URL net uuid onIndexed sc =
  (Ok tt,
   {| cells := {| UploadPanel.file_ := Some f;
                  UploadPanel.status := js "Indexed " ++ shown |};
      reported := reported sc ++ (if onIndexed then [VStr uuid] else []);
      outside :=
        after_request
          (after_request (outside sc) (upload_request API_URL f))
          (posted API_URL (js "/index")
             (VObj [(js "items",
                     UploadPanel.items uuid (own up f_text)
                       (own up f_filename))])) |}).
Proof.
  intros Hf Hup Hn Hs Hix. unfold UploadPanel.handleUpload. rewrite Hf. cexec.
  rewrite uploadFile_settled, Hup. unfold get. rewrite Hn. cexec.
  rewrite Hs. cexec.
  unfold Api.indexItems. rewrite post_json_settled, Hix, Hf. cexec.
  destruct onIndexed; cexec; [reflexivity|]. now rewrite app_nil_r.
Qed.

(** X23: the ask form.  A blank question does nothing.  Otherwise one
    request is sent to [/ask] with the question as typed (not trimmed), and the
    busy flag is off again at the end on every path: when the gateway fails
    the handler rejects with that error and [onAnswer] is not called; when it
    returns a body, [onAnswer], if given, is called once with the [data] field
    of that body ([undefined] when the body has none). *)
Theorem form_submit (onAnswer : bool) (sc : scene AskForm.cells_of) :
  let question := AskForm.q (cells sc) in
  let rq := posted API_URL (js "/ask") (VObj [(js "question", VStr question)]) in
  (whitespace_only question = true ->
   AskForm.submit API_URL net onAnswer sc = (Ok tt, sc))
  /\ (forall e,
         whitespace_only question = false ->
         settled (net rq) = Throw e ->
         AskForm.submit API_URL net onAnswer sc =
         (Throw e,
          {| cells := {| AskForm.q := question; AskForm.busy := false |};
             reported := reported sc;
             outside := after_request (outside sc) rq |}))
  /\ (forall body,
         whitespace_only question = false ->
         settled (net rq) = Ok body ->
         nullish body = false ->
         AskForm.submit API_URL net onAnswer sc =
         (Ok tt,
          {| cells := {| AskForm.q := question; AskForm.busy := false |};
             reported := reported sc
                         ++ (if onAnswer then [own body f_data] else []);
             outside := after_request (outside sc) rq |})).
Proof.
  cbv zeta. split; [|split].
  - intros Hq. unfold AskForm.submit. now rewrite truthy_trim, Hq.
  - intros e Hq He. unfold AskForm.submit. rewrite truthy_trim, Hq. cexec.
    unfold Api.ask. rewrite post_json_settled, He. reflexivity.
  - intros body Hq Hb Hn. unfold AskForm.submit. rewrite truthy_trim, Hq. cexec.
    unfold Api.ask. rewrite post_json_settled, Hb.
    destruct onAnswer; cexec.
    + unfold get. rewrite Hn. reflexivity.
    + now rewrite app_nil_r.
Qed.

End Components.

(** X24: the answer card reads a response differently from [getBestText]:
    when [output] and [answer] are both non-empty strings the card shows
    [output] while [getBestText] returns [answer]; when neither is truthy the
    card shows the pretty-printed JSON even if [message], [text] or [result]
    is there; and on [null] the card throws where [getBestText] returns the
    empty string. *)
Theorem answer_card_output (props : list (jsstring * value)) :
  (forall a o : jsstring,
      lookup (js "answer") props = Some (VStr a) ->
      lookup (js "output") props = Some (VStr o) ->
      a <> [] -> o <> [] ->
      AnswerCard.output (VObj props) = Ok (VStr o)
      /\ getBestText (VObj props) = Ok (VStr a))
  /\ (truthy (own (VObj props) f_output) = false ->
      truthy (own (VObj props) f_answer) = false ->
      AnswerCard.output (VObj props) = JSON_stringify (VObj props) 2)
  /\ (exists e, AnswerCard.output VNull = Throw e)
  /\ getBestText VNull = Ok (VStr []).
Proof.
  split; [|split; [|split]].
  - intros a o Ha Ho Hne Hno.
    assert (Ha' := own_lookup f_answer props Ha).
    assert (Ho' := own_lookup f_output props Ho).
    split.
    + unfold AnswerCard.output, get. cbn [nullish rbind]. rewrite Ho'.
      destruct o; [congruence|reflexivity].
    + unfold getBestText, getBestText_with. cbn [truthy negb is_string].
      rewrite cands_object, Ha'. destruct a; [congruence|reflexivity].
  - intros Ho Ha. unfold AnswerCard.output, get. cbn [nullish rbind].
    now rewrite Ho, Ha.
  - eexists. reflexivity.
  - reflexivity.
Qed.

Lemma panel_failure_witness :
  UploadPanel.handleUpload local_base (always server_error) (js "id-1") true panel_ready
  = (Throw (Error (resp_text server_error)),
     {| cells := {| UploadPanel.file_ := Some report_file;
                    UploadPanel.status := js "Extracting text" ++ ellipsis |};
        reported := [];
        outside := after_request (ready true pipeline [])
                     (upload_request local_base report_file) |})
  /\ UploadPanel.handleUpload local_base
       (always (json_response 200 (VObj [(js "filename", own_toString)])))
       (js "id-1") true panel_ready
     = (Throw not_primitive,
        {| cells := {| UploadPanel.file_ := Some report_file;
                       UploadPanel.status := js "Extracting text" ++ ellipsis |};
           reported := [];
           outside := after_request (ready true pipeline [])
                        (upload_request local_base report_file) |}).
Proof.
  split.
  - exact (proj1 (panel_failure local_base (always server_error) (js "id-1") true
                    panel_ready (f := report_file)
                    (Error (resp_text server_error)) eq_refl) eq_refl).
  - exact (proj2 (proj2 (panel_failure local_base
                           (always (json_response 200
                                      (VObj [(js "filename", own_toString)])))
                           (js "id-1") true panel_ready (f := report_file)
                           not_primitive eq_refl))
             (VObj [(js "filename", own_toString)]) eq_refl eq_refl eq_refl).
Defined.

Lemma panel_success_witness :
  UploadPanel.handleUpload local_base (service upserted_two) (js "id-1") true panel_ready
  = (Ok tt,
     {| cells := {| UploadPanel.file_ := Some report_file;
                    UploadPanel.status := js "Indexed Report v1.pdf" |};
        reported := [VStr (js "id-1")];
        outside :=
          after_request
            (after_request (ready true pipeline [])
               (upload_request local_base report_file))
            (posted local_base (js "/index")
               (VObj [(js "items",
                       UploadPanel.items (js "id-1") (VStr (js "hello"))
                         (VStr (js "Report v1.pdf")))])) |}).
Proof.
  exact (panel_success local_base (service upserted_two) (js "id-1") true
           panel_ready (f := report_file) (up := report_upload)
           (done := VObj [(js "upserted", VNum 2)])
           (shown := js "Report v1.pdf")
           eq_refl eq_refl eq_refl eq_refl eq_refl).
Defined.

Lemma form_submit_witness :
  AskForm.submit local_base unreachable true (form_ready (js "   "))
  = (Ok tt, form_ready (js "   "))
  /\ AskForm.submit local_base unreachable true (form_ready (js " hi "))
     = (Throw (TypeError (js "Failed to fetch")),
        {| cells := {| AskForm.q := js " hi "; AskForm.busy := false |};
           reported := [];
           outside := after_request (ready true pipeline [])
                        (posted local_base (js "/ask")
                           (VObj [(js "question", VStr (js " hi "))])) |})
  /\ AskForm.submit local_base (always upserted_two) true (form_ready (js " hi "))
     = (Ok tt,
        {| cells := {| AskForm.q := js " hi "; AskForm.busy := false |};
           reported := [VUndefined];
           outside := after_request (ready true pipeline [])
                        (posted local_base (js "/ask")
                           (VObj [(js "question", VStr (js " hi "))])) |}).
Proof.
  split; [|split].
  - exact (proj1 (form_submit local_base unreachable true (form_ready (js "   ")))
             eq_refl).
  - exact (proj1 (proj2 (form_submit local_base unreachable true
                           (form_ready (js " hi "))))
             (TypeError (js "Failed to fetch")) eq_refl eq_refl).
  - exact (proj2 (proj2 (form_submit local_base (always upserted_two) true
                           (form_ready (js " hi "))))
             (VObj [(js "upserted", VNum 2)]) eq_refl eq_refl eq_refl).
Defined.

Lemma answer_card_output_witness :
  AnswerCard.output (VObj [(js "answer", VStr (js "a")); (js "output", VStr (js "b"))])
  = Ok (VStr (js "b"))
  /\ getBestText (VObj [(js "answer", VStr (js "a")); (js "output", VStr (js "b"))])
     = Ok (VStr (js "a")).
Proof.
  exact (proj1 (answer_card_output
                  [(js "answer", VStr (js "a")); (js "output", VStr (js "b"))])
           (js "a") (js "b") eq_refl eq_refl
           ltac:(discriminate) ltac:(discriminate)).
Defined.

